(** * Pet resource handlers (routes/api/pet.js)

    A shallow embedding of the five request handlers of the pet router:
    the list-query builder ([GET /list]) as pure functions from the query
    string to the aggregation pipeline, and the single-document handlers
    ([GET /:petId], [PUT /new], [PUT /:petId], [DELETE /:petId]) as
    programs in a small state-and-exception monad over the database
    collaborators, which the router imports from [../../database]. *)

From Stdlib Require Import ZArith Ascii String List Bool Lia.
From Stdlib Require Decimal DecimalString DecimalPos DecimalZ.
From stdpp Require Import base option gmap strings list fin_maps.
Import ListNotations.

Local Open Scope string_scope.
Local Open Scope Z_scope.

(** ** JavaScript values *)

(** A number as the handlers use it, a double whose value is [NaN], an
    infinity or an integer.  [Num z] holds an integer that a double
    represents: the results of [parseInt], of the subtraction and of the
    product below are rounded to one.  The sign of zero is not kept, [-0]
    and [+0] being both falsy and equal. *)
Inductive jsnum : Type :=
| NaN
| Inf (neg : bool)
| Num (z : Z).

(** The double nearest to an integer [a >= 0], ties going to the even
    mantissa: up to 2^53 every integer is a double; above, the 53 leading
    bits are kept and the rest decides the rounding. *)
Definition round53 (a : Z) : Z :=
  if a <? 2 ^ 53 then a
  else
    let e := Z.log2 a - 52 in
    let q := Z.shiftr a e in
    let r := a - Z.shiftl q e in
    let half := Z.shiftl 1 (e - 1) in
    let q' := if (half <? r) || ((r =? half) && Z.odd q) then q + 1 else q in
    Z.shiftl q' e.

(** The number an integer becomes as a double: rounded, and an infinity
    once the rounded magnitude reaches 2^1024. *)
Definition to_double (z : Z) : jsnum :=
  let a := round53 (Z.abs z) in
  if 2 ^ 1024 <=? a then Inf (z <? 0)
  else Num (if z <? 0 then - a else a).

(** ToBoolean on a number: [NaN] and zero are falsy. *)
Definition truthy (n : jsnum) : bool :=
  match n with
  | NaN => false
  | Inf _ => true
  | Num z => negb (z =? 0)
  end.

(** [a || b] on numbers. *)
Definition js_or (a b : jsnum) : jsnum := if truthy a then a else b.

(** [a - b] on doubles. *)
Definition js_sub (a b : jsnum) : jsnum :=
  match a, b with
  | NaN, _ | _, NaN => NaN
  | Inf s, Inf s' => if Bool.eqb s s' then NaN else Inf s
  | Inf s, Num _ => Inf s
  | Num _, Inf s => Inf (negb s)
  | Num x, Num y => to_double (x - y)
  end.

(** [a * b] on doubles: an infinity times zero is [NaN]. *)
Definition js_mul (a b : jsnum) : jsnum :=
  match a, b with
  | NaN, _ | _, NaN => NaN
  | Inf s, Inf s' => Inf (xorb s s')
  | Inf s, Num y => if y =? 0 then NaN else Inf (xorb s (y <? 0))
  | Num x, Inf s => if x =? 0 then NaN else Inf (xorb (x <? 0) s)
  | Num x, Num y => to_double (x * y)
  end.

(** The sign of a number; [NaN] and zero have none. *)
Definition is_negative (n : jsnum) : bool :=
  match n with
  | NaN => false
  | Inf s => s
  | Num z => z <? 0
  end.

Definition is_positive (n : jsnum) : bool :=
  match n with
  | NaN => false
  | Inf s => negb s
  | Num z => 0 <? z
  end.

(** ToBoolean on a query-string value: [undefined] and the empty string
    are falsy. *)
Definition truthy_str (q : option string) : bool :=
  match q with
  | None => false
  | Some s => negb (String.eqb s "")
  end.

(** ** [parseInt] with no radix argument *)

Module ParseInt.

(** A query value is held as the bytes of its UTF-8 encoding. *)

(** ToString of a query value; an absent parameter is [undefined]. *)
Definition ToString (q : option string) : string :=
  match q with
  | None => "undefined"
  | Some s => s
  end.

Definition code (a : ascii) : Z := Z.of_N (N_of_ascii a).

(** The white space and line terminators of the ASCII range. *)
Definition isWhiteSpace (a : ascii) : bool :=
  let c := code a in
  ((9 <=? c) && (c <=? 13)) || (c =? 32).

(** The white space beyond ASCII, by its encoding: U+00A0 on two bytes;
    U+1680, U+2000 to U+200A, U+2028, U+2029, U+202F, U+205F, U+3000 and
    U+FEFF on three. *)
Definition isWhiteSpace2 (a b : ascii) : bool :=
  (code a =? 194) && (code b =? 160).

Definition isWhiteSpace3 (a b c : ascii) : bool :=
  ((code a =? 225) && (code b =? 154) && (code c =? 128))
  || ((code a =? 226) && (code b =? 128)
      && (((128 <=? code c) && (code c <=? 138))
          || (code c =? 168) || (code c =? 169) || (code c =? 175)))
  || ((code a =? 226) && (code b =? 129) && (code c =? 159))
  || ((code a =? 227) && (code b =? 128) && (code c =? 128))
  || ((code a =? 239) && (code b =? 187) && (code c =? 191)).

Fixpoint trimStart (s : string) : string :=
  match s with
  | EmptyString => EmptyString
  | String a s1 =>
      if isWhiteSpace a then trimStart s1
      else if code a <? 128 then s
      else
        match s1 with
        | EmptyString => s
        | String b s2 =>
            if isWhiteSpace2 a b then trimStart s2
            else
              match s2 with
              | EmptyString => s
              | String c s3 => if isWhiteSpace3 a b c then trimStart s3 else s
              end
        end
  end.

(** The value of a character as a digit: 0-9, then a-z and A-Z as
    10-35. *)
Definition digitVal (a : ascii) : option Z :=
  let c := code a in
  if (48 <=? c) && (c <=? 57) then Some (c - 48)
  else if (97 <=? c) && (c <=? 122) then Some (c - 87)
  else if (65 <=? c) && (c <=? 90) then Some (c - 55)
  else None.

(** The longest prefix of radix-[R] digits, folded to the integer it
    denotes; [acc] is [None] until a first digit is read. *)
Fixpoint digits (R : Z) (s : string) (acc : option Z) : option Z :=
  match s with
  | EmptyString => acc
  | String a s' =>
      match digitVal a with
      | Some d =>
          if d <? R
          then digits R s' (Some (R * match acc with Some v => v | None => 0 end + d))
          else acc
      | None => acc
      end
  end.

(** Strip one leading sign; the boolean tells whether it was [-]. *)
Definition stripSign (s : string) : bool * string :=
  match s with
  | String "-" s' => (true, s')
  | String "+" s' => (false, s')
  | _ => (false, s)
  end.

(** With the radix undefined a [0x] or [0X] prefix selects radix 16. *)
Definition stripPrefix (s : string) : Z * string :=
  match s with
  | String "0" (String "x" s') => (16, s')
  | String "0" (String "X" s') => (16, s')
  | _ => (10, s)
  end.

Definition parseInt (q : option string) : jsnum :=
  let '(neg, s1) := stripSign (trimStart (ToString q)) in
  let '(R, s2) := stripPrefix s1 in
  match digits R s2 None with
  | None => NaN
  | Some v => to_double (if neg then - v else v)
  end.

End ParseInt.
Import ParseInt.

(** The decimal numeral of an integer, as a client writes it in a query
    string: its digits without leading zeros, after a [-] when it is
    negative. *)
Definition decimal (n : Z) : string :=
  DecimalString.NilZero.string_of_int (Z.to_int n).

(** The characters that end a numeral silently: anything but a decimal
    digit, and but the [x] that would turn a leading 0 into a hexadecimal
    prefix. *)
Definition ends_numeral (a : ascii) : bool :=
  negb ((48 <=? code a) && (code a <=? 57))
  && negb (Ascii.eqb a "x") && negb (Ascii.eqb a "X").

Definition numeral_tail (t : string) : bool :=
  match t with
  | EmptyString => true
  | String a _ => ends_numeral a
  end.

Fixpoint all_white (s : string) : bool :=
  match s with
  | EmptyString => true
  | String a s' => isWhiteSpace a && all_white s'
  end.

(** ** The list query ([GET /list]) *)

(** [req.query]: every parameter is a string or absent. *)
Module Query.
Record t : Type := Build {
  keywords : option string;
  species : option string;
  minAge : option string;
  maxAge : option string;
  sortBy : option string;
  pageNumber : option string;
  pageSize : option string
}.

Definition empty : t := Build None None None None None None None.
End Query.

(** [match.age]: the object holding [$gte] and [$lte], each present or
    not. *)
Record AgeCond : Type := {
  gte : option jsnum;
  lte : option jsnum
}.

(** The [$match] object: [$text.$search], [species.$eq] and [age]. *)
Record Match : Type := {
  text_search : option string;
  species_eq : option string;
  age : option AgeCond
}.

Definition ageCond (minAge maxAge : jsnum) : option AgeCond :=
  if truthy minAge && truthy maxAge
  then Some {| gte := Some minAge; lte := Some maxAge |}
  else if truthy minAge
  then Some {| gte := Some minAge; lte := None |}
  else if truthy maxAge
  then Some {| gte := None; lte := Some maxAge |}
  else None.

Definition matchStage (q : Query.t) : Match :=
  {| text_search := if truthy_str (Query.keywords q) then Query.keywords q else None;
     species_eq := if truthy_str (Query.species q) then Query.species q else None;
     age := ageCond (parseInt (Query.minAge q)) (parseInt (Query.maxAge q)) |}.

(** What the store does with [age]: [$gte] and [$lte] compare the
    document's age with the bound, and both must hold.  A bound that is
    not a number matches no integer age; every age is above the negative
    infinity and below the positive one. *)
Definition holds_gte (bound : jsnum) (a : Z) : bool :=
  match bound with
  | Num b => b <=? a
  | Inf s => s
  | NaN => false
  end.

Definition holds_lte (bound : jsnum) (a : Z) : bool :=
  match bound with
  | Num b => a <=? b
  | Inf s => negb s
  | NaN => false
  end.

Definition age_matches (c : option AgeCond) (a : Z) : bool :=
  match c with
  | None => true
  | Some c =>
      match gte c with Some b => holds_gte b a | None => true end
      && match lte c with Some b => holds_lte b a | None => true end
  end.

(** A [$sort] object: field names with direction 1 or -1, in key order. *)
Abbreviation SortSpec := (list (string * Z)).

Definition sortStage (sortBy : option string) : SortSpec :=
  let sort := [("name", 1); ("createdDate", 1)] in
  match sortBy with
  | None => sort
  | Some s =>
      if String.eqb s "species" then [("species", 1); ("name", 1); ("createdDate", 1)]
      else if String.eqb s "species_desc" then [("species", -1); ("name", -1); ("createdDate", -1)]
      else if String.eqb s "name" then [("name", 1); ("createdDate", 1)]
      else if String.eqb s "name_desc" then [("name", -1); ("createdDate", -1)]
      else if String.eqb s "age" then [("age", 1); ("createdDate", 1)]
      else if String.eqb s "age_desc" then [("age", -1); ("createdDate", -1)]
      else if String.eqb s "gender" then [("gender", 1); ("name", 1); ("createdDate", 1)]
      else if String.eqb s "gender_desc" then [("gender", -1); ("name", -1); ("createdDate", -1)]
      else if String.eqb s "newest" then [("createdDate", -1)]
      else if String.eqb s "oldest" then [("createdDate", 1)]
      else sort
  end.

Definition projectStage : list (string * Z) :=
  [("species", 1); ("name", 1); ("age", 1); ("gender", 1);
   ("createdBy", 1); ("createdOn", 1); ("lastUpdatedBy", 1); ("lastUpdated", 1)].

Definition resolvedPageNumber (q : Query.t) : jsnum :=
  js_or (parseInt (Query.pageNumber q)) (Num 1).

Definition resolvedPageSize (q : Query.t) : jsnum :=
  js_or (parseInt (Query.pageSize q)) (Num 5).

Definition skipStage (q : Query.t) : jsnum :=
  js_mul (js_sub (resolvedPageNumber q) (Num 1)) (resolvedPageSize q).

Definition limitStage (q : Query.t) : jsnum := resolvedPageSize q.

Inductive Stage : Type :=
| SMatch (m : Match)
| SSort (s : SortSpec)
| SProject (p : list (string * Z))
| SSkip (n : jsnum)
| SLimit (n : jsnum).

Definition pipeline (q : Query.t) : list Stage :=
  [SMatch (matchStage q); SSort (sortStage (Query.sortBy q));
   SProject projectStage; SSkip (skipStage q); SLimit (limitStage q)].

(** The ten tokens the [switch] on [sortBy] has a case for. *)
Definition sortTokens : list string :=
  ["species"; "species_desc"; "name"; "name_desc"; "age"; "age_desc";
   "gender"; "gender_desc"; "newest"; "oldest"].

(** ** Documents *)

Definition ObjectId : Type := string.
Definition Date : Type := Z.

(** The values a pet document, a claims object or a response body holds.
    An object is a finite map from property names. *)
#[warnings="-register-all"]
Inductive value : Type :=
| VNum (z : Z)
| VStr (s : string)
| VDate (t : Date)
| VId (i : ObjectId)
| VArr (l : list value)
| VObj (o : gmap string value).

Abbreviation Doc := (gmap string value).

(** [_.isEmpty] on an object: it has no own property. *)
Definition isEmpty (o : Doc) : bool :=
  match map_to_list o with
  | [] => true
  | _ :: _ => false
  end.

(** [_.pick(o, k1, ..., kn)]: the properties of [o] among the given
    names. *)
Definition pick (o : Doc) (ks : list string) : Doc :=
  filter (fun kv => kv.1 ∈ ks) o.

(** The slice of the actor's claims stored alongside a record. *)
Definition claimKeys : list string := ["_id"; "email"; "fullName"; "role"].

(** The object literal of an audit entry.  [target] is the [petId] of
    [{ petId }]; [update] is absent in the entry of a deletion. *)
Record Edit : Type := {
  timestamp : Date;
  op : string;
  col : string;
  target : ObjectId;
  update : option Doc;
  auth : Doc
}.

(** An error thrown by a collaborator. *)
Inductive Exn : Type :=
| Error (msg : string).

(** What the driver reports of a write; the handlers read
    [matchedCount] only. *)
Record InsertResult : Type := { insertedId : ObjectId }.
Record UpdateResult : Type := { matchedCount : Z; modifiedCount : Z }.
Record DeleteResult : Type := { deletedCount : Z }.

(** ** The collaborators *)

(** The functions the router imports from the database module, and the
    clock behind [new Date()], over a state of the outside world.  A
    storage call returns its result or throws; [newId] and the clock only
    return. *)
Class Database (World : Type) : Type := {
  newId : World -> ObjectId * World;
  now : World -> Date * World;
  aggregate : list Stage -> World -> (Exn + list Doc) * World;
  findPetById : ObjectId -> World -> (Exn + option Doc) * World;
  insertOnePet : Doc -> World -> (Exn + InsertResult) * World;
  updateOnePet : ObjectId -> Doc -> World -> (Exn + UpdateResult) * World;
  deleteOnePet : ObjectId -> World -> (Exn + DeleteResult) * World;
  saveEdit : Edit -> World -> (Exn + unit) * World
}.

(** What a handler does that can be seen from outside, in the order it
    does it: the storage calls it makes, the response it sends, the error
    it hands to [next]. *)
Inductive Event : Type :=
| EAggregate (p : list Stage)
| EFind (petId : ObjectId)
| EInsert (pet : Doc)
| EUpdate (petId : ObjectId) (upd : Doc)
| EDelete (petId : ObjectId)
| ESaveEdit (edit : Edit)
| ERespond (status : Z) (body : value)
| ENext (err : Exn).

Definition is_write (e : Event) : bool :=
  match e with
  | EInsert _ | EUpdate _ _ | EDelete _ | ESaveEdit _ => true
  | _ => false
  end.

(** The audit entries a log holds, in order. *)
Fixpoint audits (l : list Event) : list Edit :=
  match l with
  | [] => []
  | ESaveEdit e :: l' => e :: audits l'
  | _ :: l' => audits l'
  end.

(** The request as the handler body finds it, once the middleware has let
    it through: [req.query], [req.petId], [req.body] and [req.auth]. *)
Record Request : Type := {
  req_query : Query.t;
  req_petId : ObjectId;
  req_body : Doc;
  req_auth : Doc
}.

(** ** The handler monad *)

Section Handlers.

Context {World : Type} `{DB : Database World}.

Record St : Type := { world : World; log : list Event }.

(** A computation reads and writes the world, appends to the log, and
    returns or throws. *)
Definition M (A : Type) : Type := St -> (Exn + A) * St.

Definition ret {A} (a : A) : M A := fun s => (inr a, s).

Definition bind {A B} (m : M A) (k : A -> M B) : M B :=
  fun s =>
    match m s with
    | (inr a, s') => k a s'
    | (inl e, s') => (inl e, s')
    end.

Notation "x <- m ;; k" := (bind m (fun x => k))
  (at level 100, m at next level, right associativity).
Notation "m ;;; k" := (bind m (fun _ => k))
  (at level 100, right associativity).

(** A call that cannot throw and is not logged. *)
Definition read {A} (f : World -> A * World) : M A :=
  fun s =>
    let '(a, w) := f (world s) in
    (inr a, {| world := w; log := log s |}).

(** An awaited storage call: logged, then run. *)
Definition call {A} (ev : Event) (f : World -> (Exn + A) * World) : M A :=
  fun s =>
    let '(r, w) := f (world s) in
    (r, {| world := w; log := log s ++ [ev] |}).

(** [res.status(status).json(body)]. *)
Definition respond (status : Z) (body : value) : M unit :=
  fun s => (inr tt, {| world := world s; log := log s ++ [ERespond status body] |}).

(** [try { body } catch (err) { next(err); }], from an empty log. *)
Definition run (body : M unit) (w : World) : St :=
  match body {| world := w; log := [] |} with
  | (inr _, s) => s
  | (inl e, s) => {| world := world s; log := log s ++ [ENext e] |}
  end.

(** *** [GET /list] *)
Definition get_list (req : Request) : M unit :=
  results <- call (EAggregate (pipeline (req_query req)))
                  (aggregate (pipeline (req_query req))) ;;
  respond 200 (VArr (VObj <$> results)).

(** *** [GET /:petId] *)
Definition get_pet (req : Request) : M unit :=
  let petId := req_petId req in
  pet <- call (EFind petId) (findPetById petId) ;;
  match pet with
  | None =>
      respond 404 (VObj {[ "error" := VStr ("Pet " ++ petId ++ " not found.") ]})
  | Some p => respond 200 (VObj p)
  end.

(** *** [PUT /new] *)
Definition newPet (req : Request) (petId : ObjectId) (createdOn : Date) : Doc :=
  <[ "createdOn" := VDate createdOn ]>
    (<[ "createdBy" := VObj (pick (req_auth req) claimKeys) ]>
       (<[ "_id" := VId petId ]> (req_body req))).

Definition insertEdit (req : Request) (petId : ObjectId) (pet : Doc) (t : Date) : Edit :=
  {| timestamp := t; op := "insert"; col := "pets"; target := petId;
     update := Some pet; auth := req_auth req |}.

Definition put_new (req : Request) : M unit :=
  petId <- read newId ;;
  createdOn <- read now ;;
  let pet := newPet req petId createdOn in
  insertResult <- call (EInsert pet) (insertOnePet pet) ;;
  t <- read now ;;
  let edit := insertEdit req petId pet t in
  call (ESaveEdit edit) (saveEdit edit) ;;;
  respond 200 (VObj (<[ "petId" := VId petId ]> {[ "message" := VStr "Pet inserted." ]})).

(** *** [PUT /:petId] *)

(** The [if (!_.isEmpty(update))] block: the body gains
    [lastUpdatedBy] and [lastUpdated]. *)
Definition stamped (req : Request) (lastUpdated : Date) : Doc :=
  <[ "lastUpdated" := VDate lastUpdated ]>
    (<[ "lastUpdatedBy" := VObj (pick (req_auth req) claimKeys) ]> (req_body req)).

Definition stamp (req : Request) : M Doc :=
  let upd := req_body req in
  if negb (isEmpty upd)
  then
    lastUpdated <- read now ;;
    ret (stamped req lastUpdated)
  else ret upd.

Definition updateEdit (req : Request) (upd : Doc) (t : Date) : Edit :=
  {| timestamp := t; op := "update"; col := "pets"; target := req_petId req;
     update := Some upd; auth := req_auth req |}.

Definition put_pet (req : Request) : M unit :=
  let petId := req_petId req in
  upd <- stamp req ;;
  updateResult <- call (EUpdate petId upd) (updateOnePet petId upd) ;;
  t <- read now ;;
  let edit := updateEdit req upd t in
  call (ESaveEdit edit) (saveEdit edit) ;;;
  if matchedCount updateResult >? 0
  then respond 200 (VObj (<[ "petId" := VId petId ]> {[ "message" := VStr "Pet Updated!" ]}))
  else respond 404 (VObj {[ "error" := VStr "Pet not found!" ]}).

(** *** [DELETE /:petId] *)
Definition deleteEdit (req : Request) (t : Date) : Edit :=
  {| timestamp := t; op := "delete"; col := "pets"; target := req_petId req;
     update := None; auth := req_auth req |}.

Definition delete_pet (req : Request) : M unit :=
  let petId := req_petId req in
  deleteResult <- call (EDelete petId) (deleteOnePet petId) ;;
  t <- read now ;;
  let edit := deleteEdit req t in
  call (ESaveEdit edit) (saveEdit edit) ;;;
  respond 200 (VObj (<[ "petId" := VId petId ]> {[ "message" := VStr "Pet Deleted!" ]})).

End Handlers.

(** ** An in-memory database *)

(** A small instance of the collaborators, on which the handlers run to
    concrete logs: the pets by identifier, the audit entries in the order
    they were saved, a clock that ticks at every reading, the identifiers
    the generator hands out next, and a switch that makes every storage
    call throw.  An insert under an identifier already in use throws, as a
    unique index makes it; the instance has no aggregation engine. *)
Module Mem.

Record World : Type := {
  pets : gmap ObjectId Doc;
  edits : list Edit;
  clock : Date;
  fresh : list ObjectId;
  down : bool
}.

Definition with_pets (w : World) (p : gmap ObjectId Doc) : World :=
  {| pets := p; edits := edits w; clock := clock w; fresh := fresh w; down := down w |}.

Definition unreachable : Exn := Error "connection refused".

Definition newId (w : World) : ObjectId * World :=
  match fresh w with
  | i :: rest =>
      (i, {| pets := pets w; edits := edits w; clock := clock w;
             fresh := rest; down := down w |})
  | [] => ("000000000000000000000000", w)
  end.

Definition now (w : World) : Date * World :=
  (clock w, {| pets := pets w; edits := edits w; clock := clock w + 1;
               fresh := fresh w; down := down w |}).

Definition aggregate (p : list Stage) (w : World) : (Exn + list Doc) * World :=
  (inl (Error "aggregate: not supported"), w).

Definition findPetById (i : ObjectId) (w : World) : (Exn + option Doc) * World :=
  if down w then (inl unreachable, w) else (inr (pets w !! i), w).

Definition insertOnePet (d : Doc) (w : World) : (Exn + InsertResult) * World :=
  if down w then (inl unreachable, w) else
  match d !! "_id" with
  | Some (VId i) =>
      match pets w !! i with
      | Some _ => (inl (Error "E11000 duplicate key error"), w)
      | None => (inr {| insertedId := i |}, with_pets w (<[ i := d ]> (pets w)))
      end
  | _ => (inl (Error "document without _id"), w)
  end.

Definition updateOnePet (i : ObjectId) (upd : Doc) (w : World)
  : (Exn + UpdateResult) * World :=
  if down w then (inl unreachable, w) else
  match pets w !! i with
  | Some d =>
      (inr {| matchedCount := 1; modifiedCount := 1 |},
       with_pets w (<[ i := upd ∪ d ]> (pets w)))
  | None => (inr {| matchedCount := 0; modifiedCount := 0 |}, w)
  end.

Definition deleteOnePet (i : ObjectId) (w : World) : (Exn + DeleteResult) * World :=
  if down w then (inl unreachable, w) else
  match pets w !! i with
  | Some _ => (inr {| deletedCount := 1 |}, with_pets w (delete i (pets w)))
  | None => (inr {| deletedCount := 0 |}, w)
  end.

Definition saveEdit (e : Edit) (w : World) : (Exn + unit) * World :=
  if down w then (inl unreachable, w) else
  (inr tt,
   {| pets := pets w; edits := edits w ++ [e]; clock := clock w;
      fresh := fresh w; down := down w |}).

#[global] Instance database : Database World := {
  newId := newId;
  now := now;
  aggregate := aggregate;
  findPetById := findPetById;
  insertOnePet := insertOnePet;
  updateOnePet := updateOnePet;
  deleteOnePet := deleteOnePet;
  saveEdit := saveEdit
}.

(** Sample data. *)
Definition alice : Doc :=
  <[ "_id" := VId "u1" ]> (<[ "email" := VStr "alice@example.com" ]>
    (<[ "fullName" := VStr "Alice" ]> (<[ "role" := VStr "admin" ]>
      (<[ "iat" := VNum 1700000000 ]> ∅)))).

Definition alice_claims : Doc :=
  <[ "_id" := VId "u1" ]> (<[ "email" := VStr "alice@example.com" ]>
    (<[ "fullName" := VStr "Alice" ]> (<[ "role" := VStr "admin" ]> ∅))).

Definition fido : Doc :=
  <[ "species" := VStr "dog" ]> (<[ "name" := VStr "Fido" ]>
    (<[ "age" := VNum 3 ]> (<[ "gender" := VStr "m" ]> ∅))).

Definition stored_fido : Doc :=
  <[ "_id" := VId "p1" ]> (<[ "createdOn" := VDate 10 ]> fido).

(** An empty store, one that holds Fido as [p1], and one that cannot be
    reached. *)
Definition w0 : World :=
  {| pets := ∅; edits := []; clock := 100; fresh := ["p1"; "p2"]; down := false |}.

Definition w1 : World :=
  {| pets := {[ "p1" := stored_fido ]}; edits := []; clock := 100;
     fresh := ["p1"; "p2"]; down := false |}.

Definition wdown : World :=
  {| pets := ∅; edits := []; clock := 100; fresh := ["p1"; "p2"]; down := true |}.

Definition request (petId : ObjectId) (body : Doc) : Request :=
  {| req_query := Query.empty; req_petId := petId; req_body := body; req_auth := alice |}.

End Mem.

(** The in-memory store with an audit collection that refuses every
    write: [saveEdit] throws, the other collaborators are as above. *)
Definition audit_down : Database Mem.World := {|
  newId := Mem.newId;
  now := Mem.now;
  aggregate := Mem.aggregate;
  findPetById := Mem.findPetById;
  insertOnePet := Mem.insertOnePet;
  updateOnePet := Mem.updateOnePet;
  deleteOnePet := Mem.deleteOnePet;
  saveEdit := fun _ w => (inl (Error "audit store unavailable"), w)
|}.

(** ** Shapes of a log *)

(** The events that end a request: a response, or an error handed to
    [next]. *)
Definition is_terminal (e : Event) : bool :=
  match e with
  | ERespond _ _ | ENext _ => true
  | _ => false
  end.

(** A log that ends with its only terminal event. *)
Definition ends_once (l : list Event) : Prop :=
  exists l0 e, l = (l0 ++ [e])%list /\ is_terminal e = true
               /\ Forall (fun x => is_terminal x = false) l0.

(** The three ways a mutation handler can run: the mutation throws; the
    mutation returns and the audit throws; both return and the response
    is sent. *)
Inductive mutation_run (mut : Event) (ed : Edit) : list Event -> Prop :=
| mutation_threw (e : Exn) : mutation_run mut ed [mut; ENext e]
| audit_threw (e : Exn) : mutation_run mut ed [mut; ESaveEdit ed; ENext e]
| answered (status : Z) (body : value) :
    mutation_run mut ed [mut; ESaveEdit ed; ERespond status body].

(** The empty [$match] object. *)
Definition matchAll : Match :=
  {| text_search := None; species_eq := None; age := None |}.

(** * Properties *)

(** ** [parseInt] on sample inputs *)

Example parseInt_absent : parseInt None = NaN.
Proof. reflexivity. Qed.

Example parseInt_word : parseInt (Some "old") = NaN.
Proof. reflexivity. Qed.

Example parseInt_plain : parseInt (Some "42") = Num 42.
Proof. reflexivity. Qed.

Example parseInt_suffix : parseInt (Some "  -12px") = Num (-12).
Proof. reflexivity. Qed.

Example parseInt_hex : parseInt (Some "0x1f") = Num 31.
Proof. reflexivity. Qed.

Example parseInt_zero : parseInt (Some "0") = Num 0.
Proof. reflexivity. Qed.

Example get_pet_missing_body :
  log (run (get_pet (Mem.request "p9" ∅)) Mem.w1)
  = [EFind "p9"; ERespond 404 (VObj {[ "error" := VStr "Pet p9 not found." ]})].
Proof. vm_compute. reflexivity. Qed.

(** ** Doubles *)

Lemma round53_small (a : Z) : a < 2 ^ 53 -> round53 a = a.
Proof.
  intros Ha. unfold round53. destruct (Z.ltb_spec a (2 ^ 53)); [reflexivity | lia].
Qed.

Lemma round53_pos (a : Z) : 0 < a -> 0 < round53 a.
Proof.
  intros Ha. unfold round53. destruct (Z.ltb_spec a (2 ^ 53)) as [|Hbig]; [lia|].
  assert (Hlog : 53 <= Z.log2 a).
  { rewrite <- (Z.log2_pow2 53) by lia. apply Z.log2_le_mono. exact Hbig. }
  set (e := Z.log2 a - 52).
  assert (He : 0 < e) by (unfold e; lia).
  assert (Hpow : 0 < 2 ^ e) by (apply Z.pow_pos_nonneg; lia).
  assert (Hq : 1 <= Z.shiftr a e).
  { rewrite Z.shiftr_div_pow2 by lia. apply Z.div_le_lower_bound; [lia|].
    destruct (Z.log2_spec a Ha) as [Hlo _].
    assert (2 ^ e <= 2 ^ Z.log2 a) by (apply Z.pow_le_mono_r; unfold e; lia).
    lia. }
  cbv zeta. rewrite Z.shiftl_mul_pow2 by lia.
  apply Z.mul_pos_pos; [|exact Hpow].
  destruct (_ || _); lia.
Qed.

Lemma round53_nonneg (a : Z) : 0 <= a -> 0 <= round53 a.
Proof.
  intros Ha. destruct (Z.eq_dec a 0) as [-> | Hne]; [reflexivity|].
  assert (0 < round53 a) by (apply round53_pos; lia). lia.
Qed.

(** An integer of magnitude up to 2^53 is a double. *)
Lemma to_double_exact (z : Z) : Z.abs z <= 2 ^ 53 -> to_double z = Num z.
Proof.
  intros Hz. unfold to_double.
  assert (Hr : round53 (Z.abs z) = Z.abs z).
  { destruct (Z.eq_dec (Z.abs z) (2 ^ 53)) as [-> | Hne].
    - vm_compute. reflexivity.
    - apply round53_small. lia. }
  rewrite Hr.
  assert (Hmax : (2 ^ 53 : Z) < 2 ^ 1024) by (apply Z.pow_lt_mono_r; lia).
  destruct (Z.leb_spec (2 ^ 1024) (Z.abs z)) as [Hbig|_]; [lia|].
  f_equal. destruct (Z.ltb_spec z 0); lia.
Qed.

(** Rounding keeps the sign, and never gives [NaN]. *)
Lemma to_double_sign (z : Z) :
  is_negative (to_double z) = (z <? 0)
  /\ is_positive (to_double z) = (0 <? z)
  /\ truthy (to_double z) = negb (z =? 0).
Proof.
  unfold to_double.
  assert (Hpos : 0 < Z.abs z -> 0 < round53 (Z.abs z)) by apply round53_pos.
  assert (Hzero : z = 0 -> round53 (Z.abs z) = 0) by (intros ->; reflexivity).
  assert (Hmax : (0 : Z) < 2 ^ 1024) by (apply Z.pow_pos_nonneg; lia).
  set (a := round53 (Z.abs z)) in *. set (M := 2 ^ 1024) in *.
  destruct (Z.leb_spec M a) as [Hbig|Hfin]; simpl.
  - assert (z <> 0) by (intros Hz; specialize (Hzero Hz); lia).
    repeat split.
    + destruct (Z.ltb_spec z 0), (Z.ltb_spec 0 z); simpl; try reflexivity; lia.
    + symmetry. apply negb_true_iff, Z.eqb_neq. assumption.
  - destruct (Z.ltb_spec z 0) as [Hneg|Hnn].
    + assert (0 < a) by (apply Hpos; lia). repeat split.
      * apply Z.ltb_lt. lia.
      * destruct (Z.ltb_spec 0 (- a)), (Z.ltb_spec 0 z); try reflexivity; lia.
      * destruct (Z.eqb_spec (- a) 0), (Z.eqb_spec z 0); try reflexivity; lia.
    + destruct (Z.eq_dec z 0) as [Hz | Hz].
      * rewrite (Hzero Hz). subst z. repeat split.
      * assert (0 < a) by (apply Hpos; lia). repeat split.
        -- apply Z.ltb_ge. lia.
        -- destruct (Z.ltb_spec 0 a), (Z.ltb_spec 0 z); try reflexivity; lia.
        -- destruct (Z.eqb_spec a 0), (Z.eqb_spec z 0); try reflexivity; lia.
Qed.

Lemma to_double_not_nan (z : Z) : to_double z <> NaN.
Proof.
  unfold to_double. destruct (2 ^ 1024 <=? round53 (Z.abs z)); discriminate.
Qed.

Example to_double_samples :
  to_double (2 ^ 53 + 1) = Num (2 ^ 53)
  /\ to_double (2 ^ 53 + 3) = Num (2 ^ 53 + 4)
  /\ to_double (94906267 * 94906267) = Num 9007199515875288
  /\ to_double (10 ^ 23) = Num 99999999999999991611392
  /\ to_double (10 ^ 310 - 1) = Inf false
  /\ to_double (- 10 ^ 310) = Inf true.
Proof. repeat split; vm_compute; reflexivity. Qed.

Example parseInt_nbsp : parseInt (Some (String "194" (String "160" "5"))) = Num 5.
Proof. reflexivity. Qed.

(** ** The age range of the list query *)

Lemma truthy_Num (z : Z) : truthy (Num z) = true <-> z <> 0.
Proof.
  simpl. rewrite negb_true_iff, Z.eqb_neq. reflexivity.
Qed.

Lemma truthy_false (n : jsnum) : truthy n = false <-> n = NaN \/ n = Num 0.
Proof.
  destruct n as [|s|z]; simpl.
  - split; [auto | reflexivity].
  - split; [discriminate | intros [H | H]; discriminate H].
  - rewrite negb_false_iff, Z.eqb_eq. split.
    + intros ->. right. reflexivity.
    + intros [H | H]; [discriminate H | congruence].
Qed.

(** Each side of the condition is there exactly when its bound is
    truthy. *)
Lemma ageCond_sides (minAge maxAge : jsnum) :
  ageCond minAge maxAge =
  if truthy minAge || truthy maxAge
  then Some {| gte := if truthy minAge then Some minAge else None;
               lte := if truthy maxAge then Some maxAge else None |}
  else None.
Proof.
  unfold ageCond. destruct (truthy minAge), (truthy maxAge); reflexivity.
Qed.

(** A bound constrains the ages when it is truthy, and only then. *)
Lemma list_age_range (q : Query.t) (x : Z) :
  age_matches (age (matchStage q)) x =
  (negb (truthy (parseInt (Query.minAge q)))
   || holds_gte (parseInt (Query.minAge q)) x)
  && (negb (truthy (parseInt (Query.maxAge q)))
      || holds_lte (parseInt (Query.maxAge q)) x).
Proof.
  unfold matchStage; simpl. rewrite ageCond_sides.
  destruct (truthy (parseInt (Query.minAge q))),
           (truthy (parseInt (Query.maxAge q))); simpl;
    rewrite ?andb_true_r; reflexivity.
Qed.

Lemma list_age_range_nonzero (q : Query.t) (a b x : Z) :
  parseInt (Query.minAge q) = Num a -> a <> 0 ->
  parseInt (Query.maxAge q) = Num b -> b <> 0 ->
  age (matchStage q) = Some {| gte := Some (Num a); lte := Some (Num b) |}
  /\ (age_matches (age (matchStage q)) x = true <-> a <= x <= b).
Proof.
  intros Ha Ha0 Hb Hb0. split.
  - unfold matchStage; simpl. rewrite Ha, Hb. unfold ageCond.
    apply truthy_Num in Ha0, Hb0. rewrite Ha0, Hb0. reflexivity.
  - rewrite list_age_range, Ha, Hb.
    apply truthy_Num in Ha0, Hb0. rewrite Ha0, Hb0. simpl.
    rewrite andb_true_iff, !Z.leb_le. reflexivity.
Qed.

(** C1: on [maxAge=0] the bound parses to the integer 0 and yet adds no
    upper side to the age condition: alone it leaves the ages
    unconstrained, and next to [minAge=2] only the lower side is kept, so
    a pet aged 7 passes a query asking for ages up to 0. *)
Theorem list_maxAge_zero_is_dropped :
  let q0 := Query.Build None None None (Some "0") None None None in
  let q2 := Query.Build None None (Some "2") (Some "0") None None None in
  parseInt (Query.maxAge q0) = Num 0
  /\ age (matchStage q0) = None
  /\ age_matches (age (matchStage q0)) 7 = true
  /\ age (matchStage q2) = Some {| gte := Some (Num 2); lte := None |}
  /\ age_matches (age (matchStage q2)) 7 = true.
Proof.
  repeat split; reflexivity.
Qed.

(** ** The sort of the list query *)

Ltac sort_cases s :=
  unfold sortStage;
  repeat match goal with
         | |- context [String.eqb s ?t] =>
             let E := fresh "E" in destruct (String.eqb s t) eqn:E
         end.

(** Whatever [sortBy] is, the sort is one of the eleven object literals
    of the handler. *)
Lemma sortStage_fields (sortBy : option string) (f : string) (d : Z) :
  In (f, d) (sortStage sortBy) ->
  In f ["species"; "name"; "age"; "gender"; "createdDate"] /\ (d = 1 \/ d = -1).
Proof.
  destruct sortBy as [s|]; [sort_cases s|]; simpl; intros H;
    repeat (destruct H as [H | H]; [inversion H; subst; simpl; tauto|]);
    contradiction.
Qed.

(** A [sortBy] that is none of the ten tokens sorts as an absent one. *)
Lemma sortStage_fallback (s : string) :
  ~ In s sortTokens -> sortStage (Some s) = sortStage None.
Proof.
  intros Hs. sort_cases s; try reflexivity;
    match goal with
    | H : String.eqb s _ = true |- _ => apply String.eqb_eq in H; subst s
    end;
    exfalso; apply Hs; simpl; tauto.
Qed.

(** C2: no sort the handler produces names [createdOn], the field a
    created pet carries and the projection returns; the tiebreak and the
    [newest] and [oldest] sorts name [createdDate], which no stored pet
    has. *)
Theorem list_sort_names_createdDate_not_createdOn :
  (forall sortBy d, ~ In ("createdOn", d) (sortStage sortBy))
  /\ sortStage None = [("name", 1); ("createdDate", 1)]
  /\ sortStage (Some "age") = [("age", 1); ("createdDate", 1)]
  /\ sortStage (Some "newest") = [("createdDate", -1)]
  /\ sortStage (Some "oldest") = [("createdDate", 1)]
  /\ In ("createdOn", 1) projectStage
  /\ (forall d, ~ In ("createdDate", d) projectStage)
  /\ (forall req petId t,
        newPet req petId t !! "createdOn" = Some (VDate t)
        /\ newPet req petId t !! "createdDate" = req_body req !! "createdDate").
Proof.
  split; [|repeat split].
  - intros sortBy d H. apply sortStage_fields in H as [H _].
    simpl in H. repeat (destruct H as [H | H]; [discriminate H|]). exact H.
  - simpl. tauto.
  - intros d H. simpl in H.
    repeat (destruct H as [H | H]; [discriminate H|]). exact H.
  - unfold newPet. apply lookup_insert_eq.
  - unfold newPet. rewrite !lookup_insert_ne by discriminate. reflexivity.
Qed.

(** C10: each descending sort is its ascending sort with every direction
    negated, the tiebreak fields included. *)
Theorem list_desc_sorts_negate_every_key :
  let negated (s : SortSpec) := map (fun fd => (fst fd, - snd fd)) s in
  sortStage (Some "species_desc") = negated (sortStage (Some "species"))
  /\ sortStage (Some "name_desc") = negated (sortStage (Some "name"))
  /\ sortStage (Some "age_desc") = negated (sortStage (Some "age"))
  /\ sortStage (Some "gender_desc") = negated (sortStage (Some "gender"))
  /\ sortStage (Some "species_desc") = [("species", -1); ("name", -1); ("createdDate", -1)]
  /\ sortStage (Some "name_desc") = [("name", -1); ("createdDate", -1)]
  /\ sortStage (Some "age_desc") = [("age", -1); ("createdDate", -1)]
  /\ sortStage (Some "gender_desc") = [("gender", -1); ("name", -1); ("createdDate", -1)].
Proof.
  repeat split; reflexivity.
Qed.

(** ** The page window of the list query *)

(** A parameter defaulted with [||] is its parse when that is truthy and
    the default otherwise; it is never [NaN] nor 0. *)
Lemma js_or_default (n : jsnum) (d : Z) :
  d <> 0 ->
  truthy (js_or n (Num d)) = true
  /\ (truthy n = false -> js_or n (Num d) = Num d)
  /\ (truthy n = true -> js_or n (Num d) = n).
Proof.
  intros Hd. unfold js_or. destruct (truthy n) eqn:Hn.
  - repeat split; auto. discriminate.
  - repeat split; auto; [apply truthy_Num; exact Hd | discriminate].
Qed.

(** The offset is exact as long as the page number less one, and the
    product, stay within the integers a double holds. *)
Lemma skipStage_exact (q : Query.t) (n m : Z) :
  resolvedPageNumber q = Num n ->
  resolvedPageSize q = Num m ->
  Z.abs (n - 1) <= 2 ^ 53 ->
  Z.abs ((n - 1) * m) <= 2 ^ 53 ->
  skipStage q = Num ((n - 1) * m).
Proof.
  intros Hn Hm Hsub Hmul. unfold skipStage. rewrite Hn, Hm. simpl.
  rewrite to_double_exact by exact Hsub. simpl.
  apply to_double_exact. exact Hmul.
Qed.

(** C6: the page number and size are parsed with [parseInt] and are 1
    and 5 when the parameter is absent or does not parse, the parsed
    integer when it is not zero; the offset is (pageNumber - 1) * pageSize
    in the arithmetic of doubles, which is that very integer as long as it
    and pageNumber - 1 are of magnitude at most 2^53, and the limit is
    pageSize. *)
Theorem list_page_window (q : Query.t) :
  (Query.pageNumber q = None -> resolvedPageNumber q = Num 1)
  /\ (Query.pageSize q = None -> resolvedPageSize q = Num 5)
  /\ (parseInt (Query.pageNumber q) = NaN -> resolvedPageNumber q = Num 1)
  /\ (parseInt (Query.pageSize q) = NaN -> resolvedPageSize q = Num 5)
  /\ (forall n, parseInt (Query.pageNumber q) = Num n -> n <> 0 ->
                resolvedPageNumber q = Num n)
  /\ (forall m, parseInt (Query.pageSize q) = Num m -> m <> 0 ->
                resolvedPageSize q = Num m)
  /\ skipStage q = js_mul (js_sub (resolvedPageNumber q) (Num 1)) (resolvedPageSize q)
  /\ limitStage q = resolvedPageSize q
  /\ In (SSkip (skipStage q)) (pipeline q)
  /\ In (SLimit (limitStage q)) (pipeline q)
  /\ (forall n m, resolvedPageNumber q = Num n -> resolvedPageSize q = Num m ->
        Z.abs (n - 1) <= 2 ^ 53 -> Z.abs ((n - 1) * m) <= 2 ^ 53 ->
        skipStage q = Num ((n - 1) * m) /\ limitStage q = Num m)
  /\ skipStage Query.empty = Num 0 /\ limitStage Query.empty = Num 5
  /\ skipStage (Query.Build None None None None None (Some "3") (Some "10")) = Num 20
  /\ limitStage (Query.Build None None None None None (Some "3") (Some "10")) = Num 10.
Proof.
  repeat match goal with |- _ /\ _ => split end; try reflexivity.
  - unfold resolvedPageNumber. intros ->. reflexivity.
  - unfold resolvedPageSize. intros ->. reflexivity.
  - unfold resolvedPageNumber. intros ->. reflexivity.
  - unfold resolvedPageSize. intros ->. reflexivity.
  - unfold resolvedPageNumber. intros n -> Hn. unfold js_or.
    apply truthy_Num in Hn. rewrite Hn. reflexivity.
  - unfold resolvedPageSize. intros m -> Hm. unfold js_or.
    apply truthy_Num in Hm. rewrite Hm. reflexivity.
  - unfold pipeline. simpl. tauto.
  - unfold pipeline. simpl. tauto.
  - intros n m Hn Hm Hsub Hmul. split.
    + apply skipStage_exact; assumption.
    + unfold limitStage. exact Hm.
Qed.

Lemma list_page_window_witness :
  skipStage (Query.Build None None None None None (Some "7") (Some "20")) = Num ((7 - 1) * 20)
  /\ limitStage (Query.Build None None None None None (Some "7") (Some "20")) = Num 20.
Proof.
  destruct (list_page_window
              (Query.Build None None None None None (Some "7") (Some "20")))
    as (_ & _ & _ & _ & _ & _ & _ & _ & _ & _ & H & _).
  apply (H 7 20);
    [reflexivity | reflexivity | vm_compute; discriminate | vm_compute; discriminate].
Defined.

(** A negative page number with a negative page size: both are kept, and
    the offset is positive. *)
Lemma list_negative_page_positive_skip :
  let q := Query.Build None None None None None (Some "-1") (Some "-5") in
  parseInt (Query.pageNumber q) = Num (-1)
  /\ resolvedPageNumber q = Num (-1)
  /\ resolvedPageSize q = Num (-5)
  /\ skipStage q = Num 10
  /\ ~ (exists k, skipStage q = Num k /\ k < 0).
Proof.
  repeat split; try reflexivity.
  intros (k & Hk & Hneg). vm_compute in Hk. injection Hk as <-. lia.
Qed.

(** The sign of the offset is the sign of the page number less one times
    that of the page size, rounded or not. *)
Lemma skip_sign (n : Z) (ps : jsnum) :
  n < 0 -> truthy ps = true ->
  is_negative (js_mul (js_sub (Num n) (Num 1)) ps) = is_positive ps
  /\ is_positive (js_mul (js_sub (Num n) (Num 1)) ps) = is_negative ps.
Proof.
  intros Hn Hps. simpl js_sub.
  destruct (to_double_sign (n - 1)) as (Hneg & _ & Htr).
  assert (Hneg' : is_negative (to_double (n - 1)) = true)
    by (rewrite Hneg; apply Z.ltb_lt; lia).
  assert (Htr' : truthy (to_double (n - 1)) = true)
    by (rewrite Htr; apply negb_true_iff, Z.eqb_neq; lia).
  clear Hneg Htr.
  destruct (to_double (n - 1)) as [|s|k]; simpl in Hneg', Htr'.
  - discriminate Htr'.
  - subst s.
    destruct ps as [|s'|m]; simpl in *;
      [discriminate | split; [reflexivity | destruct s'; reflexivity] |].
    rewrite negb_true_iff in Hps. rewrite Hps. simpl.
    apply Z.eqb_neq in Hps.
    destruct (Z.ltb_spec m 0), (Z.ltb_spec 0 m); simpl; split; try reflexivity; lia.
  - apply Z.ltb_lt in Hneg'.
    destruct ps as [|s'|m]; simpl in *; [discriminate | |].
    + destruct (Z.eqb_spec k 0); [lia|].
      destruct (Z.ltb_spec k 0); [|lia]. simpl.
      split; [reflexivity | destruct s'; reflexivity].
    + apply negb_true_iff, Z.eqb_neq in Hps.
      destruct (to_double_sign (k * m)) as (Hneg & Hpos & _). rewrite Hneg, Hpos.
      split.
      * destruct (Z.ltb_spec (k * m) 0), (Z.ltb_spec 0 m); try reflexivity; nia.
      * destruct (Z.ltb_spec 0 (k * m)), (Z.ltb_spec m 0); try reflexivity; nia.
Qed.

(** C9 (amended): a page number or size that parses to 0 is replaced by
    its default, 1 or 5; a negative one is kept; the offset is
    (pageNumber - 1) * pageSize with no clamping, which for a negative
    page number is negative exactly when the page size is positive. *)
Theorem list_page_zero_and_negative (q : Query.t) :
  (parseInt (Query.pageNumber q) = Num 0 -> resolvedPageNumber q = Num 1)
  /\ (parseInt (Query.pageSize q) = Num 0 -> resolvedPageSize q = Num 5)
  /\ (forall n, parseInt (Query.pageNumber q) = Num n -> n < 0 ->
                resolvedPageNumber q = Num n)
  /\ (forall m, parseInt (Query.pageSize q) = Num m -> m < 0 ->
                resolvedPageSize q = Num m)
  /\ (forall n, parseInt (Query.pageNumber q) = Num n -> n < 0 ->
        skipStage q = js_mul (js_sub (Num n) (Num 1)) (resolvedPageSize q)
        /\ In (SSkip (skipStage q)) (pipeline q)
        /\ (is_negative (skipStage q) = true
            <-> is_positive (resolvedPageSize q) = true)
        /\ (is_positive (skipStage q) = true
            <-> is_negative (resolvedPageSize q) = true)
        /\ (forall m, resolvedPageSize q = Num m ->
              Z.abs (n - 1) <= 2 ^ 53 -> Z.abs ((n - 1) * m) <= 2 ^ 53 ->
              skipStage q = Num ((n - 1) * m)
              /\ ((n - 1) * m < 0 <-> 0 < m)))
  /\ resolvedPageNumber (Query.Build None None None None None (Some "0") (Some "0")) = Num 1
  /\ resolvedPageSize (Query.Build None None None None None (Some "0") (Some "0")) = Num 5
  /\ skipStage (Query.Build None None None None None (Some "-2") None) = Num (-15).
Proof.
  assert (Hkeep : forall n, parseInt (Query.pageNumber q) = Num n -> n < 0 ->
                    resolvedPageNumber q = Num n).
  { unfold resolvedPageNumber, js_or. intros n -> Hn.
    assert (Hn0 : n <> 0) by lia. apply truthy_Num in Hn0. rewrite Hn0. reflexivity. }
  repeat match goal with |- _ /\ _ => split end; try reflexivity.
  - unfold resolvedPageNumber. intros ->. reflexivity.
  - unfold resolvedPageSize. intros ->. reflexivity.
  - exact Hkeep.
  - unfold resolvedPageSize, js_or. intros m -> Hm.
    assert (Hm0 : m <> 0) by lia. apply truthy_Num in Hm0. rewrite Hm0. reflexivity.
  - intros n Hn Hneg. specialize (Hkeep n Hn Hneg).
    assert (Hskip : skipStage q
                    = js_mul (js_sub (Num n) (Num 1)) (resolvedPageSize q)).
    { unfold skipStage. rewrite Hkeep. reflexivity. }
    assert (Hps : truthy (resolvedPageSize q) = true).
    { apply (js_or_default (parseInt (Query.pageSize q)) 5). lia. }
    destruct (skip_sign n (resolvedPageSize q) Hneg Hps) as [Hsn Hsp].
    split; [exact Hskip | split; [unfold pipeline; simpl; tauto | split; [|split]]].
    + rewrite Hskip, Hsn. tauto.
    + rewrite Hskip, Hsp. tauto.
    + intros m Hm Hsub Hmul. split.
      * apply skipStage_exact; assumption.
      * rewrite Hm in Hps. apply truthy_Num in Hps. nia.
Qed.

Lemma list_page_zero_and_negative_witness :
  skipStage (Query.Build None None None None None (Some "-3") (Some "10"))
  = Num ((-3 - 1) * 10)
  /\ ((-3 - 1) * 10 < 0 <-> 0 < 10).
Proof.
  destruct (list_page_zero_and_negative
              (Query.Build None None None None None (Some "-3") (Some "10")))
    as (_ & _ & _ & _ & H & _).
  destruct (H (-3)) as (_ & _ & _ & _ & Hexact); [reflexivity | lia |].
  apply (Hexact 10); [reflexivity | vm_compute; discriminate | vm_compute; discriminate].
Defined.

(** ** The single-document handlers *)

Ltac run_handler :=
  unfold run, bind, call, read, respond, ret; simpl.

Section HandlerFacts.

Context {World : Type} `{DB : Database World}.

(** C8: fetching a pet by identifier answers with the pet when the
    store finds one and with a 404 and an error body when it finds none;
    an error of the store goes to [next]; the only storage call is the
    lookup, so nothing is written. *)
Theorem get_pet_found_or_not_found (req : Request) (w : World) :
  let petId := req_petId req in
  (forall p w', findPetById petId w = (inr (Some p), w') ->
     run (get_pet req) w
     = {| world := w'; log := [EFind petId; ERespond 200 (VObj p)] |})
  /\ (forall w', findPetById petId w = (inr None, w') ->
     run (get_pet req) w
     = {| world := w';
          log := [EFind petId;
                  ERespond 404
                    (VObj {[ "error" := VStr ("Pet " ++ petId ++ " not found.") ]})] |})
  /\ (forall e w', findPetById petId w = (inl e, w') ->
     run (get_pet req) w = {| world := w'; log := [EFind petId; ENext e] |})
  /\ Forall (fun ev => is_write ev = false) (log (run (get_pet req) w))
  /\ world (run (get_pet req) w) = snd (findPetById petId w).
Proof.
  intros petId. unfold get_pet. fold petId. run_handler.
  repeat match goal with |- _ /\ _ => split end.
  - intros p w' ->. reflexivity.
  - intros w' ->. reflexivity.
  - intros e w' ->. reflexivity.
  - destruct (findPetById petId w) as [[e | [p |]] w']; simpl;
      repeat constructor.
  - destruct (findPetById petId w) as [[e | [p |]] w']; reflexivity.
Qed.

(** C5: deleting runs the deletion, then saves one audit entry with
    operation [delete], the identifier as target, the actor's claims and
    no update, then answers with the success message and the
    identifier, whatever count the deletion reports. *)
Theorem delete_pet_always_audits
    (req : Request) (w w1 w2 w3 : World) (r : DeleteResult) (t : Date) :
  let petId := req_petId req in
  let edit := {| timestamp := t; op := "delete"; col := "pets"; target := petId;
                 update := None; auth := req_auth req |} in
  deleteOnePet petId w = (inr r, w1) ->
  now w1 = (t, w2) ->
  saveEdit edit w2 = (inr tt, w3) ->
  run (delete_pet req) w
  = {| world := w3;
       log := [EDelete petId; ESaveEdit edit;
               ERespond 200 (VObj (<[ "petId" := VId petId ]>
                                     {[ "message" := VStr "Pet Deleted!" ]}))] |}
  /\ audits (log (run (delete_pet req) w)) = [edit].
Proof.
  intros petId edit Hdel Hnow Hsave.
  assert (Hrun : run (delete_pet req) w
                 = {| world := w3;
                      log := [EDelete petId; ESaveEdit edit;
                              ERespond 200 (VObj (<[ "petId" := VId petId ]>
                                     {[ "message" := VStr "Pet Deleted!" ]}))] |}).
  { unfold delete_pet. fold petId. run_handler.
    rewrite Hdel. simpl. rewrite Hnow. simpl.
    unfold deleteEdit. fold petId. fold edit. rewrite Hsave. reflexivity. }
  split; [exact Hrun | rewrite Hrun; reflexivity].
Qed.

(** C4: creating inserts first and audits second.  When the insert
    throws, the error goes to [next] and no audit entry is saved; when
    it returns, one entry with operation [insert], the new identifier as
    target, the assembled document as update and the actor's claims is
    saved, and the response follows it. *)
Theorem put_new_inserts_then_audits
    (req : Request) (w w1 w2 : World) (petId : ObjectId) (createdOn : Date) :
  let pet := newPet req petId createdOn in
  newId w = (petId, w1) ->
  now w1 = (createdOn, w2) ->
  (forall e w3, insertOnePet pet w2 = (inl e, w3) ->
     run (put_new req) w = {| world := w3; log := [EInsert pet; ENext e] |}
     /\ audits (log (run (put_new req) w)) = [])
  /\ (forall r w3 t w4 w5,
        let edit := {| timestamp := t; op := "insert"; col := "pets"; target := petId;
                       update := Some pet; auth := req_auth req |} in
        insertOnePet pet w2 = (inr r, w3) ->
        now w3 = (t, w4) ->
        saveEdit edit w4 = (inr tt, w5) ->
        run (put_new req) w
        = {| world := w5;
             log := [EInsert pet; ESaveEdit edit;
                     ERespond 200 (VObj (<[ "petId" := VId petId ]>
                                           {[ "message" := VStr "Pet inserted." ]}))] |}
        /\ audits (log (run (put_new req) w)) = [edit]).
Proof.
  intros pet Hid Hnow. split.
  - intros e w3 Hins.
    assert (Hrun : run (put_new req) w
                   = {| world := w3; log := [EInsert pet; ENext e] |}).
    { unfold put_new. run_handler. rewrite Hid. simpl. rewrite Hnow. simpl.
      fold pet. rewrite Hins. reflexivity. }
    split; [exact Hrun | rewrite Hrun; reflexivity].
  - intros r w3 t w4 w5 edit Hins Hnow' Hsave.
    assert (Hrun : run (put_new req) w
                   = {| world := w5;
                        log := [EInsert pet; ESaveEdit edit;
                                ERespond 200 (VObj (<[ "petId" := VId petId ]>
                                           {[ "message" := VStr "Pet inserted." ]}))] |}).
    { unfold put_new. run_handler. rewrite Hid. simpl. rewrite Hnow. simpl.
      fold pet. rewrite Hins. simpl. rewrite Hnow'. simpl.
      unfold insertEdit. fold edit. rewrite Hsave. reflexivity. }
    split; [exact Hrun | rewrite Hrun; reflexivity].
Qed.

(** On the way of [PUT /new] there is no rollback: when saving the audit
    entry throws, the insert has been made and the error goes to [next]. *)
Lemma put_new_audit_failure
    (req : Request) (w w1 w2 w3 w4 w5 : World) (petId : ObjectId)
    (createdOn t : Date) (r : InsertResult) (e : Exn) :
  let pet := newPet req petId createdOn in
  newId w = (petId, w1) ->
  now w1 = (createdOn, w2) ->
  insertOnePet pet w2 = (inr r, w3) ->
  now w3 = (t, w4) ->
  saveEdit (insertEdit req petId pet t) w4 = (inl e, w5) ->
  run (put_new req) w
  = {| world := w5;
       log := [EInsert pet; ESaveEdit (insertEdit req petId pet t); ENext e] |}.
Proof.
  intros pet Hid Hnow Hins Hnow' Hsave.
  unfold put_new. run_handler. rewrite Hid. simpl. rewrite Hnow. simpl.
  fold pet. rewrite Hins. simpl. rewrite Hnow'. simpl. rewrite Hsave. reflexivity.
Qed.

(** [GET /list] makes one storage call, the aggregation of the pipeline
    built from the query, and answers with its results. *)
Lemma get_list_runs_pipeline (req : Request) (w w' : World) (results : list Doc) :
  aggregate (pipeline (req_query req)) w = (inr results, w') ->
  run (get_list req) w
  = {| world := w';
       log := [EAggregate (pipeline (req_query req));
               ERespond 200 (VArr (VObj <$> results))] |}.
Proof.
  intros Hagg. unfold get_list. run_handler. rewrite Hagg. reflexivity.
Qed.

(** The stamping step never throws and leaves the log as it is. *)
Lemma stamp_total (req : Request) (s : St) :
  exists upd w1, stamp req s = (inr upd, {| world := w1; log := log s |}).
Proof.
  unfold stamp. destruct (isEmpty (req_body req)); simpl.
  - exists (req_body req), (world s). destruct s; reflexivity.
  - unfold bind, read, ret. destruct (now (world s)) as [t w1].
    exists (stamped req t), w1. reflexivity.
Qed.

(** C3: updating applies the stamped payload, then saves one audit
    entry with operation [update], the identifier as target, that
    payload as update and the actor's claims, whatever the store
    matched; the answer is the success message with the identifier when
    at least one document matched and a 404 otherwise. *)
Theorem put_pet_audits_then_answers
    (req : Request) (w w1 w2 w3 w4 : World) (upd : Doc) (r : UpdateResult) (t : Date) :
  let petId := req_petId req in
  let edit := {| timestamp := t; op := "update"; col := "pets"; target := petId;
                 update := Some upd; auth := req_auth req |} in
  stamp req {| world := w; log := [] |} = (inr upd, {| world := w1; log := [] |}) ->
  updateOnePet petId upd w1 = (inr r, w2) ->
  now w2 = (t, w3) ->
  saveEdit edit w3 = (inr tt, w4) ->
  (0 < matchedCount r ->
     run (put_pet req) w
     = {| world := w4;
          log := [EUpdate petId upd; ESaveEdit edit;
                  ERespond 200 (VObj (<[ "petId" := VId petId ]>
                                        {[ "message" := VStr "Pet Updated!" ]}))] |})
  /\ (matchedCount r <= 0 ->
     run (put_pet req) w
     = {| world := w4;
          log := [EUpdate petId upd; ESaveEdit edit;
                  ERespond 404 (VObj {[ "error" := VStr "Pet not found!" ]})] |})
  /\ audits (log (run (put_pet req) w)) = [edit].
Proof.
  intros petId edit Hstamp Hupd Hnow Hsave.
  assert (Hrun : run (put_pet req) w
                 = {| world := w4;
                      log := [EUpdate petId upd; ESaveEdit edit;
                              if matchedCount r >? 0
                              then ERespond 200 (VObj (<[ "petId" := VId petId ]>
                                        {[ "message" := VStr "Pet Updated!" ]}))
                              else ERespond 404 (VObj {[ "error" := VStr "Pet not found!" ]})] |}).
  { unfold put_pet. fold petId. unfold run, bind at 1. rewrite Hstamp.
    run_handler. rewrite Hupd. simpl. rewrite Hnow. simpl.
    unfold updateEdit. fold petId. fold edit. rewrite Hsave.
    destruct (matchedCount r >? 0); reflexivity. }
  repeat split.
  - intros Hpos. rewrite Hrun.
    destruct (Z.gtb_spec (matchedCount r) 0); [reflexivity | lia].
  - intros Hnone. rewrite Hrun.
    destruct (Z.gtb_spec (matchedCount r) 0); [lia | reflexivity].
  - rewrite Hrun. destruct (matchedCount r >? 0); reflexivity.
Qed.

Lemma isEmpty_true (o : Doc) : isEmpty o = true <-> o = ∅.
Proof.
  unfold isEmpty. rewrite <- map_to_list_empty_iff.
  destruct (map_to_list o); split; intros H; congruence.
Qed.

Lemma isEmpty_false (o : Doc) : isEmpty o = false <-> o <> ∅.
Proof.
  rewrite <- isEmpty_true. destruct (isEmpty o); split; congruence.
Qed.

(** [_.pick] keeps the named properties and nothing else. *)
Lemma pick_lookup (o : Doc) (ks : list string) (k : string) :
  pick o ks !! k = if decide (k ∈ ks) then o !! k else None.
Proof.
  unfold pick. destruct (decide (k ∈ ks)) as [Hin | Hout].
  - destruct (o !! k) as [v|] eqn:Hk.
    + apply map_lookup_filter_Some. auto.
    + apply map_lookup_filter_None. left. exact Hk.
  - apply map_lookup_filter_None. right. intros v _. exact Hout.
Qed.

Lemma stamped_lookup (req : Request) (t : Date) (k : string) :
  stamped req t !! k =
  if decide (k = "lastUpdated") then Some (VDate t)
  else if decide (k = "lastUpdatedBy")
       then Some (VObj (pick (req_auth req) claimKeys))
       else req_body req !! k.
Proof.
  unfold stamped. repeat case_decide; subst.
  - apply lookup_insert_eq.
  - rewrite lookup_insert_ne by discriminate. apply lookup_insert_eq.
  - rewrite !lookup_insert_ne by congruence. reflexivity.
Qed.

(** C7: a payload that is not empty is applied and audited with
    [lastUpdatedBy], the actor's identifier, email, full name and role,
    and [lastUpdated], the time read from the clock, added to it; an
    empty payload is applied and audited as it is, empty. *)
Theorem put_pet_stamps_nonempty_payload (req : Request) (w : World) :
  let petId := req_petId req in
  let edit (upd : Doc) (t : Date) :=
    {| timestamp := t; op := "update"; col := "pets"; target := petId;
       update := Some upd; auth := req_auth req |} in
  let answer (r : UpdateResult) :=
    if matchedCount r >? 0
    then ERespond 200 (VObj (<[ "petId" := VId petId ]>
                               {[ "message" := VStr "Pet Updated!" ]}))
    else ERespond 404 (VObj {[ "error" := VStr "Pet not found!" ]}) in
  (req_body req <> ∅ ->
     forall lastUpdated w1 r w2 t w3 w4,
       let upd := <[ "lastUpdated" := VDate lastUpdated ]>
                    (<[ "lastUpdatedBy" := VObj (pick (req_auth req) claimKeys) ]>
                       (req_body req)) in
       now w = (lastUpdated, w1) ->
       updateOnePet petId upd w1 = (inr r, w2) ->
       now w2 = (t, w3) ->
       saveEdit (edit upd t) w3 = (inr tt, w4) ->
       log (run (put_pet req) w)
       = [EUpdate petId upd; ESaveEdit (edit upd t); answer r]
       /\ upd !! "lastUpdated" = Some (VDate lastUpdated)
       /\ upd !! "lastUpdatedBy" = Some (VObj (pick (req_auth req) claimKeys))
       /\ (forall k, k <> "lastUpdated" -> k <> "lastUpdatedBy" ->
                     upd !! k = req_body req !! k)
       /\ (forall k, pick (req_auth req) claimKeys !! k
                     = if decide (k ∈ ["_id"; "email"; "fullName"; "role"])
                       then req_auth req !! k else None))
  /\ (req_body req = ∅ ->
      forall r w2 t w3 w4,
        updateOnePet petId ∅ w = (inr r, w2) ->
        now w2 = (t, w3) ->
        saveEdit (edit ∅ t) w3 = (inr tt, w4) ->
        log (run (put_pet req) w)
        = [EUpdate petId ∅; ESaveEdit (edit ∅ t); answer r]
        /\ update (edit ∅ t) = Some ∅).
Proof.
  intros petId edit answer. split.
  - intros Hne lastUpdated w1 r w2 t w3 w4 upd Hnow Hupd Hnow' Hsave.
    apply isEmpty_false in Hne.
    repeat match goal with |- _ /\ _ => split end.
    + unfold put_pet, stamp. fold petId. rewrite Hne. run_handler.
      rewrite Hnow. simpl. unfold stamped. fold upd. rewrite Hupd. simpl.
      rewrite Hnow'. simpl. unfold updateEdit. fold petId.
      change {| timestamp := t; op := "update"; col := "pets"; target := petId;
                update := Some upd; auth := req_auth req |} with (edit upd t).
      rewrite Hsave. unfold answer. destruct (matchedCount r >? 0); reflexivity.
    + apply lookup_insert_eq.
    + unfold upd. rewrite lookup_insert_ne by discriminate. apply lookup_insert_eq.
    + intros k Hk1 Hk2. unfold upd. rewrite !lookup_insert_ne by congruence.
      reflexivity.
    + intros k. apply pick_lookup.
  - intros Hempty r w2 t w3 w4 Hupd Hnow' Hsave.
    split; [|reflexivity].
    unfold put_pet, stamp. fold petId. rewrite Hempty.
    replace (isEmpty ∅) with true by (symmetry; apply isEmpty_true; reflexivity).
    run_handler. rewrite Hupd. simpl. rewrite Hnow'. simpl.
    unfold updateEdit. fold petId. rewrite ?Hempty.
    change {| timestamp := t; op := "update"; col := "pets"; target := petId;
              update := Some ∅; auth := req_auth req |} with (edit ∅ t).
    rewrite Hsave. unfold answer. destruct (matchedCount r >? 0); reflexivity.
Qed.

End HandlerFacts.

(** ** Runs on the in-memory database *)

(** Deleting [p9] from a store that holds only [p1]: nothing is deleted,
    one audit entry is saved and the answer is the success message. *)
Lemma delete_pet_always_audits_witness :
  Mem.deleteOnePet "p9" Mem.w1 = (inr {| deletedCount := 0 |}, Mem.w1)
  /\ log (run (delete_pet (Mem.request "p9" ∅)) Mem.w1)
     = [EDelete "p9";
        ESaveEdit {| timestamp := 100; op := "delete"; col := "pets"; target := "p9";
                     update := None; auth := Mem.alice |};
        ERespond 200 (VObj (<[ "petId" := VId "p9" ]>
                              {[ "message" := VStr "Pet Deleted!" ]}))]
  /\ Mem.edits (world (run (delete_pet (Mem.request "p9" ∅)) Mem.w1))
     = [{| timestamp := 100; op := "delete"; col := "pets"; target := "p9";
           update := None; auth := Mem.alice |}]
  /\ Mem.pets (world (run (delete_pet (Mem.request "p9" ∅)) Mem.w1)) = Mem.pets Mem.w1.
Proof.
  split; [reflexivity|].
  assert (Hrun := delete_pet_always_audits (Mem.request "p9" ∅) Mem.w1 Mem.w1
              (snd (Mem.now Mem.w1))
              (snd (Mem.saveEdit
                      {| timestamp := 100; op := "delete"; col := "pets"; target := "p9";
                         update := None; auth := Mem.alice |}
                      (snd (Mem.now Mem.w1))))
              {| deletedCount := 0 |} 100).
  destruct Hrun as [Hrun _]; [reflexivity..|].
  rewrite Hrun. repeat split; reflexivity.
Defined.

(** Fetching [p1], which the store holds, then [p9], which it does not,
    then [p1] from a store that cannot be reached. *)
Lemma get_pet_found_or_not_found_witness :
  run (get_pet (Mem.request "p1" ∅)) Mem.w1
  = {| world := Mem.w1; log := [EFind "p1"; ERespond 200 (VObj Mem.stored_fido)] |}
  /\ run (get_pet (Mem.request "p9" ∅)) Mem.w1
     = {| world := Mem.w1;
          log := [EFind "p9";
                  ERespond 404 (VObj {[ "error" := VStr "Pet p9 not found." ]})] |}
  /\ run (get_pet (Mem.request "p1" ∅)) Mem.wdown
     = {| world := Mem.wdown; log := [EFind "p1"; ENext Mem.unreachable] |}.
Proof.
  split; [|split].
  - apply (proj1 (get_pet_found_or_not_found (Mem.request "p1" ∅) Mem.w1)).
    reflexivity.
  - apply (proj1 (proj2 (get_pet_found_or_not_found (Mem.request "p9" ∅) Mem.w1))).
    reflexivity.
  - apply (proj1 (proj2 (proj2
             (get_pet_found_or_not_found (Mem.request "p1" ∅) Mem.wdown)))).
    reflexivity.
Defined.

(** Creating Fido in a store where the generated identifier is already
    in use: the insert throws and nothing is audited.  In an empty store
    the insert is followed by one audit entry, then by the answer. *)
Lemma put_new_inserts_then_audits_witness :
  (log (run (put_new (Mem.request "" Mem.fido)) Mem.w1)
   = [EInsert (newPet (Mem.request "" Mem.fido) "p1" 100);
      ENext (Error "E11000 duplicate key error")]
   /\ Mem.edits (world (run (put_new (Mem.request "" Mem.fido)) Mem.w1)) = [])
  /\ (log (run (put_new (Mem.request "" Mem.fido)) Mem.w0)
      = [EInsert (newPet (Mem.request "" Mem.fido) "p1" 100);
         ESaveEdit {| timestamp := 101; op := "insert"; col := "pets"; target := "p1";
                      update := Some (newPet (Mem.request "" Mem.fido) "p1" 100);
                      auth := Mem.alice |};
         ERespond 200 (VObj (<[ "petId" := VId "p1" ]>
                               {[ "message" := VStr "Pet inserted." ]}))]
      /\ Mem.edits (world (run (put_new (Mem.request "" Mem.fido)) Mem.w0))
         = [{| timestamp := 101; op := "insert"; col := "pets"; target := "p1";
               update := Some (newPet (Mem.request "" Mem.fido) "p1" 100);
               auth := Mem.alice |}]
      /\ Mem.pets (world (run (put_new (Mem.request "" Mem.fido)) Mem.w0)) !! "p1"
         = Some (newPet (Mem.request "" Mem.fido) "p1" 100)).
Proof.
  split.
  - assert (H := put_new_inserts_then_audits (Mem.request "" Mem.fido) Mem.w1
                   (snd (Mem.newId Mem.w1)) (snd (Mem.now (snd (Mem.newId Mem.w1))))
                   "p1" 100).
    destruct H as [H _]; [reflexivity..|].
    destruct (H (Error "E11000 duplicate key error")
                (snd (Mem.now (snd (Mem.newId Mem.w1))))) as [Hrun _]; [reflexivity|].
    rewrite Hrun. split; reflexivity.
  - assert (H := put_new_inserts_then_audits (Mem.request "" Mem.fido) Mem.w0
                   (snd (Mem.newId Mem.w0)) (snd (Mem.now (snd (Mem.newId Mem.w0))))
                   "p1" 100).
    destruct H as [_ H]; [reflexivity..|].
    pose (w3 := snd (Mem.insertOnePet (newPet (Mem.request "" Mem.fido) "p1" 100)
                       (snd (Mem.now (snd (Mem.newId Mem.w0)))))).
    pose (edit := {| timestamp := 101; op := "insert"; col := "pets"; target := "p1";
                     update := Some (newPet (Mem.request "" Mem.fido) "p1" 100);
                     auth := Mem.alice |}).
    destruct (H {| insertedId := "p1" |} w3 101 (snd (Mem.now w3))
                (snd (Mem.saveEdit edit (snd (Mem.now w3))))) as [Hrun _];
      [vm_compute; reflexivity..|].
    rewrite Hrun. repeat split; vm_compute; reflexivity.
Defined.

(** Updating the age of [p1], which the store holds, and of [p9], which
    it does not: both are audited, the first answers with the success
    message and the second with a 404. *)
Lemma put_pet_audits_then_answers_witness :
  (log (run (put_pet (Mem.request "p1" {[ "age" := VNum 4 ]})) Mem.w1)
   = [EUpdate "p1" (stamped (Mem.request "p1" {[ "age" := VNum 4 ]}) 100);
      ESaveEdit {| timestamp := 101; op := "update"; col := "pets"; target := "p1";
                   update := Some (stamped (Mem.request "p1" {[ "age" := VNum 4 ]}) 100);
                   auth := Mem.alice |};
      ERespond 200 (VObj (<[ "petId" := VId "p1" ]>
                            {[ "message" := VStr "Pet Updated!" ]}))])
  /\ (log (run (put_pet (Mem.request "p9" {[ "age" := VNum 4 ]})) Mem.w1)
      = [EUpdate "p9" (stamped (Mem.request "p9" {[ "age" := VNum 4 ]}) 100);
         ESaveEdit {| timestamp := 101; op := "update"; col := "pets"; target := "p9";
                      update := Some (stamped (Mem.request "p9" {[ "age" := VNum 4 ]}) 100);
                      auth := Mem.alice |};
         ERespond 404 (VObj {[ "error" := VStr "Pet not found!" ]})]
      /\ audits (log (run (put_pet (Mem.request "p9" {[ "age" := VNum 4 ]})) Mem.w1))
         = [{| timestamp := 101; op := "update"; col := "pets"; target := "p9";
               update := Some (stamped (Mem.request "p9" {[ "age" := VNum 4 ]}) 100);
               auth := Mem.alice |}]).
Proof.
  split.
  - pose (req := Mem.request "p1" {[ "age" := VNum 4 ]}).
    pose (wa := snd (Mem.now Mem.w1)).
    pose (wb := snd (Mem.updateOnePet "p1" (stamped req 100) wa)).
    pose (edit := {| timestamp := 101; op := "update"; col := "pets"; target := "p1";
                     update := Some (stamped req 100); auth := Mem.alice |}).
    assert (H := put_pet_audits_then_answers req Mem.w1 wa wb (snd (Mem.now wb))
                   (snd (Mem.saveEdit edit (snd (Mem.now wb))))
                   (stamped req 100) {| matchedCount := 1; modifiedCount := 1 |} 101).
    destruct H as [H _]; [vm_compute; reflexivity..|].
    fold req. rewrite H; [reflexivity | simpl; lia].
  - pose (req := Mem.request "p9" {[ "age" := VNum 4 ]}).
    pose (wa := snd (Mem.now Mem.w1)).
    pose (edit := {| timestamp := 101; op := "update"; col := "pets"; target := "p9";
                     update := Some (stamped req 100); auth := Mem.alice |}).
    assert (H := put_pet_audits_then_answers req Mem.w1 wa wa (snd (Mem.now wa))
                   (snd (Mem.saveEdit edit (snd (Mem.now wa))))
                   (stamped req 100) {| matchedCount := 0; modifiedCount := 0 |} 101).
    destruct H as (_ & H & Haud); [vm_compute; reflexivity..|].
    fold req. split; [rewrite H; [reflexivity | simpl; lia] | exact Haud].
Defined.

(** Updating [p1] with a new age, then with an empty payload: the first
    update carries the two stamps on top of the age, the second is empty
    in the call and in the audit entry, and answers with the success
    message since [p1] is matched. *)
Lemma put_pet_stamps_nonempty_payload_witness :
  (log (run (put_pet (Mem.request "p1" {[ "age" := VNum 4 ]})) Mem.w1)
   = [EUpdate "p1" (<[ "lastUpdated" := VDate 100 ]>
                      (<[ "lastUpdatedBy" := VObj (pick Mem.alice claimKeys) ]>
                         {[ "age" := VNum 4 ]}));
      ESaveEdit {| timestamp := 101; op := "update"; col := "pets"; target := "p1";
                   update := Some (<[ "lastUpdated" := VDate 100 ]>
                                     (<[ "lastUpdatedBy" := VObj (pick Mem.alice claimKeys) ]>
                                        {[ "age" := VNum 4 ]}));
                   auth := Mem.alice |};
      ERespond 200 (VObj (<[ "petId" := VId "p1" ]>
                            {[ "message" := VStr "Pet Updated!" ]}))]
   /\ pick Mem.alice claimKeys = Mem.alice_claims)
  /\ log (run (put_pet (Mem.request "p1" ∅)) Mem.w1)
     = [EUpdate "p1" ∅;
        ESaveEdit {| timestamp := 100; op := "update"; col := "pets"; target := "p1";
                     update := Some ∅; auth := Mem.alice |};
        ERespond 200 (VObj (<[ "petId" := VId "p1" ]>
                              {[ "message" := VStr "Pet Updated!" ]}))].
Proof.
  split; [split; [|vm_compute; reflexivity]|].
  - pose (req := Mem.request "p1" {[ "age" := VNum 4 ]}).
    pose (upd := <[ "lastUpdated" := VDate 100 ]>
                   (<[ "lastUpdatedBy" := VObj (pick Mem.alice claimKeys) ]>
                      ({[ "age" := VNum 4 ]} : Doc))).
    pose (wa := snd (Mem.now Mem.w1)).
    pose (wb := snd (Mem.updateOnePet "p1" upd wa)).
    pose (edit := {| timestamp := 101; op := "update"; col := "pets"; target := "p1";
                     update := Some upd; auth := Mem.alice |}).
    destruct (put_pet_stamps_nonempty_payload req Mem.w1) as [H _].
    destruct (H ltac:(apply isEmpty_false; reflexivity) 100 wa
                {| matchedCount := 1; modifiedCount := 1 |} wb 101
                (snd (Mem.now wb)) (snd (Mem.saveEdit edit (snd (Mem.now wb)))))
      as [Hlog _]; [vm_compute; reflexivity..|].
    exact Hlog.
  - pose (req := Mem.request "p1" ∅).
    pose (wb := snd (Mem.updateOnePet "p1" ∅ Mem.w1)).
    pose (edit := {| timestamp := 100; op := "update"; col := "pets"; target := "p1";
                     update := Some ∅; auth := Mem.alice |}).
    destruct (put_pet_stamps_nonempty_payload req Mem.w1) as [_ H].
    destruct (H eq_refl {| matchedCount := 1; modifiedCount := 1 |} wb 100
                (snd (Mem.now wb)) (snd (Mem.saveEdit edit (snd (Mem.now wb)))))
      as [Hlog _]; [vm_compute; reflexivity..|].
    exact Hlog.
Defined.

(** ** More on the list query *)

(** When a product of doubles is [NaN], and its sign otherwise. *)
Lemma js_mul_nan (x y : jsnum) :
  truthy y = true ->
  js_mul x y = NaN <-> x = NaN \/ (x = Num 0 /\ exists s, y = Inf s).
Proof.
  intros Hy.
  destruct x as [|s|k], y as [|s'|m]; simpl in *; try discriminate.
  - split; auto.
  - split; auto.
  - split; [discriminate | intros [H | [H _]]; discriminate H].
  - rewrite negb_true_iff in Hy. rewrite Hy.
    split; [discriminate | intros [H | [H _]]; discriminate H].
  - destruct (Z.eqb_spec k 0) as [-> | Hk].
    + split; eauto.
    + split; [discriminate | intros [H | [H _]]; congruence].
  - split.
    + intros H. contradiction (to_double_not_nan _ H).
    + intros [H | [_ [s H]]]; discriminate H.
Qed.

Lemma js_mul_not_negative (x y : jsnum) :
  is_negative x = false -> is_positive y = true ->
  is_negative (js_mul x y) = false.
Proof.
  intros Hx Hy.
  destruct x as [|s|k], y as [|s'|m]; simpl in *; try discriminate; try reflexivity.
  - subst s. apply negb_true_iff in Hy. subst s'. reflexivity.
  - subst s. apply Z.ltb_lt in Hy.
    destruct (Z.eqb_spec m 0); [lia|].
    destruct (Z.ltb_spec m 0); [lia | reflexivity].
  - apply negb_true_iff in Hy. subst s'. apply Z.ltb_ge in Hx.
    destruct (Z.eqb_spec k 0); [reflexivity|].
    destruct (Z.ltb_spec k 0); [lia | reflexivity].
  - destruct (to_double_sign (k * m)) as (Hneg & _ & _). rewrite Hneg.
    apply Z.ltb_ge in Hx. apply Z.ltb_lt in Hy. apply Z.ltb_ge. nia.
Qed.

(** X1: consecutive pages tile the result: from page [n >= 1] to page
    [n + 1] with the same page size [m], and as long as [n * |m|] is at
    most 2^53, the offset grows by exactly the page size, and page 1
    starts at offset 0. *)
Theorem list_pages_tile (q q' : Query.t) (n m : Z) :
  Query.pageSize q' = Query.pageSize q ->
  parseInt (Query.pageNumber q) = Num n ->
  parseInt (Query.pageNumber q') = Num (n + 1) ->
  resolvedPageSize q = Num m ->
  1 <= n ->
  n * Z.abs m <= 2 ^ 53 ->
  skipStage q = Num ((n - 1) * m) /\ limitStage q = Num m
  /\ skipStage q' = Num ((n - 1) * m + m) /\ limitStage q' = Num m
  /\ (n = 1 -> skipStage q = Num 0).
Proof.
  intros Hsize Hn Hn' Hm Hpos Hbound.
  assert (Hm0 : m <> 0).
  { apply truthy_Num. rewrite <- Hm.
    apply (js_or_default (parseInt (Query.pageSize q)) 5). lia. }
  assert (Hm' : resolvedPageSize q' = Num m).
  { unfold resolvedPageSize in *. rewrite Hsize. exact Hm. }
  assert (Hpn : resolvedPageNumber q = Num n).
  { unfold resolvedPageNumber, js_or. rewrite Hn.
    rewrite (proj2 (truthy_Num n)) by lia. reflexivity. }
  assert (Hpn' : resolvedPageNumber q' = Num (n + 1)).
  { unfold resolvedPageNumber, js_or. rewrite Hn'.
    rewrite (proj2 (truthy_Num (n + 1))) by lia. reflexivity. }
  assert (Hskip : skipStage q = Num ((n - 1) * m)).
  { apply skipStage_exact; [assumption | assumption | nia | nia]. }
  repeat match goal with |- _ /\ _ => split end.
  - exact Hskip.
  - exact Hm.
  - rewrite (skipStage_exact q' (n + 1) m Hpn' Hm') by nia. f_equal. lia.
  - exact Hm'.
  - intros ->. rewrite Hskip. reflexivity.
Qed.

Lemma list_pages_tile_witness :
  skipStage (Query.Build None None None None None (Some "2") (Some "10"))
  = Num ((2 - 1) * 10)
  /\ limitStage (Query.Build None None None None None (Some "2") (Some "10")) = Num 10
  /\ skipStage (Query.Build None None None None None (Some "3") (Some "10"))
     = Num ((2 - 1) * 10 + 10)
  /\ limitStage (Query.Build None None None None None (Some "3") (Some "10")) = Num 10
  /\ (2 = 1 ->
      skipStage (Query.Build None None None None None (Some "2") (Some "10")) = Num 0).
Proof.
  apply (list_pages_tile
           (Query.Build None None None None None (Some "2") (Some "10"))
           (Query.Build None None None None None (Some "3") (Some "10")) 2 10);
    [reflexivity | reflexivity | reflexivity | reflexivity | lia
    | vm_compute; discriminate].
Defined.

(** X2: the limit handed to the pipeline is never [NaN] nor 0; the
    offset is [NaN] exactly when the page number is 1 and the page size is
    an infinity; and when neither parameter parses to a negative number,
    the offset is not negative and the limit is positive. *)
Theorem list_window_bounds (q : Query.t) :
  truthy (limitStage q) = true
  /\ (skipStage q = NaN
      <-> resolvedPageNumber q = Num 1 /\ exists s, resolvedPageSize q = Inf s)
  /\ (is_negative (parseInt (Query.pageNumber q)) = false ->
      is_negative (parseInt (Query.pageSize q)) = false ->
      is_negative (skipStage q) = false /\ is_positive (limitStage q) = true).
Proof.
  destruct (js_or_default (parseInt (Query.pageNumber q)) 1) as (Hpn & Hpn0 & Hpn1); [lia|].
  destruct (js_or_default (parseInt (Query.pageSize q)) 5) as (Hps & Hps0 & Hps1); [lia|].
  fold (resolvedPageNumber q) in Hpn, Hpn0, Hpn1.
  fold (resolvedPageSize q) in Hps, Hps0, Hps1.
  split; [exact Hps | split].
  - unfold skipStage. rewrite (js_mul_nan _ _ Hps).
    destruct (resolvedPageNumber q) as [|s|n]; simpl in *; [discriminate | |].
    + split; [intros [H | [H _]]; discriminate H | intros [H _]; discriminate H].
    + destruct (to_double_sign (n - 1)) as (_ & _ & Ht). split.
      * intros [H | [H Hinf]]; [contradiction (to_double_not_nan _ H)|].
        rewrite H in Ht. simpl in Ht. symmetry in Ht.
        apply negb_false_iff, Z.eqb_eq in Ht.
        split; [f_equal; lia | exact Hinf].
      * intros [[= ->] Hinf]. right. split; [reflexivity | exact Hinf].
  - intros Hn Hm.
    assert (Hpos : forall p d, 0 < d -> is_negative p = false ->
               is_positive (js_or p (Num d)) = true).
    { intros p d Hd Hp. unfold js_or. destruct p as [|s|z]; simpl in *.
      - apply Z.ltb_lt. exact Hd.
      - subst s. reflexivity.
      - destruct (Z.eqb_spec z 0); simpl; apply Z.ltb_lt; [exact Hd|].
        apply Z.ltb_ge in Hp. lia. }
    assert (Hn' : is_positive (resolvedPageNumber q) = true) by (apply Hpos; [lia | exact Hn]).
    assert (Hm' : is_positive (resolvedPageSize q) = true) by (apply Hpos; [lia | exact Hm]).
    split; [|exact Hm'].
    unfold skipStage. apply js_mul_not_negative; [|exact Hm'].
    destruct (resolvedPageNumber q) as [|s|n]; simpl in *; [reflexivity | |].
    + apply negb_true_iff. exact Hn'.
    + destruct (to_double_sign (n - 1)) as (Hneg & _ & _). rewrite Hneg.
      apply Z.ltb_lt in Hn'. apply Z.ltb_ge. lia.
Qed.

Lemma list_window_bounds_witness :
  is_negative (skipStage (Query.Build None None None None None (Some "4") (Some "25")))
  = false
  /\ is_positive (limitStage (Query.Build None None None None None (Some "4") (Some "25")))
     = true.
Proof.
  destruct (list_window_bounds
              (Query.Build None None None None None (Some "4") (Some "25")))
    as (_ & _ & H).
  apply H; reflexivity.
Defined.

(** X3: a pet of age [x] passes the age condition of the query exactly
    when [x] is at least the lower bound and at most the upper bound,
    for each bound that parses to an integer other than zero or to an
    infinity; a bound that is absent, does not parse, or parses to 0
    constrains nothing. *)
Theorem list_age_condition_meaning (q : Query.t) (x : Z) :
  age_matches (age (matchStage q)) x = true
  <-> (forall a, parseInt (Query.minAge q) = Num a -> a <> 0 -> a <= x)
      /\ parseInt (Query.minAge q) <> Inf false
      /\ (forall b, parseInt (Query.maxAge q) = Num b -> b <> 0 -> x <= b)
      /\ parseInt (Query.maxAge q) <> Inf true.
Proof.
  rewrite list_age_range, andb_true_iff.
  assert (Hlo : forall p,
             negb (truthy p) || holds_gte p x = true
             <-> (forall a, p = Num a -> a <> 0 -> a <= x) /\ p <> Inf false).
  { intros [|s|a]; simpl.
    - split; [intros _; split; [intros ? [=] | discriminate] | reflexivity].
    - destruct s; split; try reflexivity; try discriminate.
      + intros _. split; [intros ? [=] | discriminate].
      + intros [_ H]. contradiction H. reflexivity.
    - rewrite orb_true_iff, negb_true_iff, negb_false_iff, Z.eqb_eq, Z.leb_le. split.
      + intros H. split; [intros a' [= <-] Ha; lia | discriminate].
      + intros [H _]. destruct (Z.eq_dec a 0); [left; assumption|].
        right. apply (H a eq_refl). assumption. }
  assert (Hhi : forall p,
             negb (truthy p) || holds_lte p x = true
             <-> (forall b, p = Num b -> b <> 0 -> x <= b) /\ p <> Inf true).
  { intros [|s|b]; simpl.
    - split; [intros _; split; [intros ? [=] | discriminate] | reflexivity].
    - destruct s; split; try reflexivity; try discriminate.
      + intros [_ H]. contradiction H. reflexivity.
      + intros _. split; [intros ? [=] | discriminate].
    - rewrite orb_true_iff, negb_true_iff, negb_false_iff, Z.eqb_eq, Z.leb_le. split.
      + intros H. split; [intros b' [= <-] Hb; lia | discriminate].
      + intros [H _]. destruct (Z.eq_dec b 0); [left; assumption|].
        right. apply (H b eq_refl). assumption. }
  rewrite Hlo, Hhi. tauto.
Qed.

(** X4: a bound never reaches the store as [NaN] or as 0: every bound
    the age condition holds is the parse of its own parameter, a number
    other than zero or an infinity, and a condition that is present has at
    least one side. *)
Theorem list_age_bounds_never_nan_or_zero (q : Query.t) (c : AgeCond) :
  age (matchStage q) = Some c ->
  (forall b, gte c = Some b ->
     b = parseInt (Query.minAge q) /\ b <> NaN /\ b <> Num 0)
  /\ (forall b, lte c = Some b ->
     b = parseInt (Query.maxAge q) /\ b <> NaN /\ b <> Num 0)
  /\ (gte c <> None \/ lte c <> None).
Proof.
  assert (Hne : forall p, truthy p = true -> p <> NaN /\ p <> Num 0).
  { intros p Hp. split; intros ->; discriminate Hp. }
  unfold matchStage; simpl. rewrite ageCond_sides.
  destruct (truthy (parseInt (Query.minAge q))) eqn:Hmin,
           (truthy (parseInt (Query.maxAge q))) eqn:Hmax;
    simpl; intros [= <-]; simpl.
  - split; [|split]; [intros b [= <-]; auto | intros b [= <-]; auto | left; discriminate].
  - split; [|split]; [intros b [= <-]; auto | intros b [=] | left; discriminate].
  - split; [|split]; [intros b [=] | intros b [= <-]; auto | right; discriminate].
Qed.

Lemma list_age_bounds_never_nan_or_zero_witness :
  (forall b, Some (Num 2) = Some b ->
     b = parseInt (Query.minAge
           (Query.Build None None (Some "2") (Some "x") None None None))
     /\ b <> NaN /\ b <> Num 0)
  /\ (forall b, @None jsnum = Some b ->
     b = parseInt (Query.maxAge
           (Query.Build None None (Some "2") (Some "x") None None None))
     /\ b <> NaN /\ b <> Num 0)
  /\ (Some (Num 2) <> None \/ @None jsnum <> None).
Proof.
  apply (list_age_bounds_never_nan_or_zero
           (Query.Build None None (Some "2") (Some "x") None None None)
           {| gte := Some (Num 2); lte := None |}).
  reflexivity.
Defined.

(** X5: an inverted range is no error and is not reordered: when the
    lower bound parses to an integer greater than the upper one, both
    other than zero, no age passes the condition. *)
Theorem list_inverted_range_matches_nothing (q : Query.t) (a b x : Z) :
  parseInt (Query.minAge q) = Num a -> a <> 0 ->
  parseInt (Query.maxAge q) = Num b -> b <> 0 ->
  b < a ->
  age (matchStage q) = Some {| gte := Some (Num a); lte := Some (Num b) |}
  /\ age_matches (age (matchStage q)) x = false.
Proof.
  intros Ha Ha0 Hb Hb0 Hlt.
  destruct (list_age_range_nonzero q a b x Ha Ha0 Hb Hb0) as [Hage Hiff].
  split; [exact Hage|].
  destruct (age_matches (age (matchStage q)) x); [|reflexivity].
  destruct Hiff as [Hiff _]. specialize (Hiff eq_refl). lia.
Qed.

Lemma list_inverted_range_matches_nothing_witness :
  age (matchStage (Query.Build None None (Some "9") (Some "3") None None None))
  = Some {| gte := Some (Num 9); lte := Some (Num 3) |}
  /\ age_matches
       (age (matchStage (Query.Build None None (Some "9") (Some "3") None None None))) 5
     = false.
Proof.
  apply (list_inverted_range_matches_nothing
           (Query.Build None None (Some "9") (Some "3") None None None) 9 3 5);
    [reflexivity | lia | reflexivity | lia | lia].
Defined.

(** X6: the query filters nothing exactly when [keywords] and [species]
    are absent or empty and each age bound parses to [NaN] or to 0. *)
Theorem list_match_all_iff (q : Query.t) :
  matchStage q = matchAll
  <-> (Query.keywords q = None \/ Query.keywords q = Some "")
      /\ (Query.species q = None \/ Query.species q = Some "")
      /\ (parseInt (Query.minAge q) = NaN \/ parseInt (Query.minAge q) = Num 0)
      /\ (parseInt (Query.maxAge q) = NaN \/ parseInt (Query.maxAge q) = Num 0).
Proof.
  assert (Hstr : forall o : option string,
             (if truthy_str o then o else None) = None
             <-> (o = None \/ o = Some "")).
  { intros [s|]; simpl; [|tauto].
    destruct (String.eqb_spec s "") as [-> | Hs]; simpl.
    - split; [intros _; right; reflexivity | reflexivity].
    - split; [discriminate | intros [H | H]; congruence]. }
  unfold matchStage, matchAll. rewrite <- !Hstr, <- !truthy_false. split.
  - intros [= Ht Hs Ha]. rewrite ageCond_sides in Ha.
    destruct (truthy (parseInt (Query.minAge q))),
             (truthy (parseInt (Query.maxAge q))); simpl in Ha; try discriminate.
    auto.
  - intros (-> & -> & Ha & Hb). rewrite ageCond_sides, Ha, Hb. reflexivity.
Qed.

(** X7: the sort token is matched exactly: a [sortBy] that is not,
    character for character, one of the ten tokens sorts like an absent
    one, by name then [createdDate], both ascending. *)
Theorem list_sort_unknown_token (s : string) :
  ~ In s sortTokens ->
  sortStage (Some s) = [("name", 1); ("createdDate", 1)].
Proof.
  intros Hs. rewrite (sortStage_fallback s Hs). reflexivity.
Qed.

Lemma list_sort_unknown_token_witness :
  sortStage (Some "Age_Desc") = [("name", 1); ("createdDate", 1)].
Proof.
  apply (list_sort_unknown_token "Age_Desc").
  simpl. intros H.
  repeat (destruct H as [H | H]; [discriminate H|]). exact H.
Defined.

(** X8: whatever [sortBy] is, the sort has at least one key, its keys
    are pairwise distinct fields, all keys go in one direction, 1 or -1,
    and the last key is [createdDate]. *)
Theorem list_sort_shape (sortBy : option string) :
  exists d,
    (d = 1 \/ d = -1)
    /\ Forall (fun fd => snd fd = d) (sortStage sortBy)
    /\ List.last (sortStage sortBy) ("", 0) = ("createdDate", d)
    /\ NoDup (map fst (sortStage sortBy)).
Proof.
  destruct sortBy as [s|]; [sort_cases s|];
    first [ exists 1; split; [left; reflexivity|]
                   ; split; [repeat constructor|]
                   ; split; [reflexivity|]
                   ; apply (bool_decide_unpack _); vm_compute; reflexivity
          | exists (-1); split; [right; reflexivity|]
                   ; split; [repeat constructor|]
                   ; split; [reflexivity|]
                   ; apply (bool_decide_unpack _); vm_compute; reflexivity ].
Qed.

(** ** More on the handlers *)

(** X9: the fields the server sets on a new pet cannot be supplied by
    the client: whatever the body holds, [_id] is the generated
    identifier, [createdOn] the clock reading and [createdBy] the actor's
    claims cut down to identifier, email, full name and role; every other
    field is the body's. *)
Theorem new_pet_server_fields (req : Request) (petId : ObjectId) (t : Date) :
  newPet req petId t !! "_id" = Some (VId petId)
  /\ newPet req petId t !! "createdOn" = Some (VDate t)
  /\ newPet req petId t !! "createdBy" = Some (VObj (pick (req_auth req) claimKeys))
  /\ (forall k, k <> "_id" -> k <> "createdBy" -> k <> "createdOn" ->
                newPet req petId t !! k = req_body req !! k)
  /\ dom (newPet req petId t)
     = {[ "_id"; "createdBy"; "createdOn" ]} ∪ dom (req_body req)
  /\ (forall k v, pick (req_auth req) claimKeys !! k = Some v ->
                  In k ["_id"; "email"; "fullName"; "role"]
                  /\ req_auth req !! k = Some v).
Proof.
  unfold newPet. repeat match goal with |- _ /\ _ => split end.
  - rewrite !lookup_insert_ne by discriminate. apply lookup_insert_eq.
  - apply lookup_insert_eq.
  - rewrite lookup_insert_ne by discriminate. apply lookup_insert_eq.
  - intros k H1 H2 H3. rewrite !lookup_insert_ne by congruence. reflexivity.
  - rewrite !dom_insert_L. apply set_eq. intros k.
    rewrite !elem_of_union, !elem_of_singleton. tauto.
  - intros k v Hk. unfold pick in Hk.
    apply map_lookup_filter_Some in Hk as [Hk Hin]. simpl in Hin.
    split; [apply list_elem_of_In; exact Hin | exact Hk].
Qed.

Section HandlerShapes.

Context {World : Type} `{DB : Database World}.

(** Each mutation handler runs in one of the three ways, and when it
    reaches the response, its save has returned and left the world the
    run ends in. *)
Lemma put_new_shape (req : Request) (w : World) :
  exists petId createdOn t,
    mutation_run (EInsert (newPet req petId createdOn))
                 (insertEdit req petId (newPet req petId createdOn) t)
                 (log (run (put_new req) w))
    /\ (forall status body,
          In (ERespond status body) (log (run (put_new req) w)) ->
          exists w',
            saveEdit (insertEdit req petId (newPet req petId createdOn) t) w'
            = (inr tt, world (run (put_new req) w))).
Proof.
  unfold put_new. run_handler.
  destruct (newId w) as [petId w1]; simpl.
  destruct (now w1) as [createdOn w2]; simpl.
  exists petId, createdOn.
  destruct (insertOnePet _ w2) as [[e | r] w3]; simpl.
  - exists 0. split; [constructor|].
    intros status body [H | [H | []]]; discriminate H.
  - destruct (now w3) as [t w4]; simpl. exists t.
    destruct (saveEdit _ w4) as [[e | []] w5] eqn:Hsave; simpl.
    + split; [constructor|].
      intros status body [H | [H | [H | []]]]; discriminate H.
    + split; [constructor|]. intros status body _. exists w4. exact Hsave.
Qed.

Lemma put_pet_shape (req : Request) (w : World) :
  exists upd t,
    (upd = req_body req \/ exists lastUpdated, upd = stamped req lastUpdated)
    /\ mutation_run (EUpdate (req_petId req) upd) (updateEdit req upd t)
                    (log (run (put_pet req) w))
    /\ (forall status body,
          In (ERespond status body) (log (run (put_pet req) w)) ->
          exists w',
            saveEdit (updateEdit req upd t) w'
            = (inr tt, world (run (put_pet req) w))).
Proof.
  unfold put_pet, run, bind.
  destruct (stamp_total req {| world := w; log := [] |}) as (upd & w1 & Hstamp).
  assert (Hupd : upd = req_body req \/ exists lastUpdated, upd = stamped req lastUpdated).
  { revert Hstamp. unfold stamp. destruct (isEmpty (req_body req)); simpl.
    - unfold ret. simpl. intros Heq. left. congruence.
    - unfold bind, read, ret. simpl. destruct (now w) as [lu w']. simpl.
      intros Heq. right. exists lu. congruence. }
  rewrite Hstamp. run_handler. exists upd.
  destruct (updateOnePet _ upd w1) as [[e | r] w2]; simpl.
  - exists 0. split; [exact Hupd | split; [constructor|]].
    intros status body [H | [H | []]]; discriminate H.
  - destruct (now w2) as [t w3]; simpl. exists t. split; [exact Hupd|].
    destruct (saveEdit _ w3) as [[e | []] w4] eqn:Hsave; simpl.
    + split; [constructor|].
      intros status body [H | [H | [H | []]]]; discriminate H.
    + destruct (matchedCount r >? 0); simpl;
        (split; [constructor | intros status body _; exists w3; exact Hsave]).
Qed.

Lemma delete_pet_shape (req : Request) (w : World) :
  exists t,
    mutation_run (EDelete (req_petId req)) (deleteEdit req t)
                 (log (run (delete_pet req) w))
    /\ (forall status body,
          In (ERespond status body) (log (run (delete_pet req) w)) ->
          exists w',
            saveEdit (deleteEdit req t) w'
            = (inr tt, world (run (delete_pet req) w))).
Proof.
  unfold delete_pet. run_handler.
  destruct (deleteOnePet _ w) as [[e | r] w1]; simpl.
  - exists 0. split; [constructor|].
    intros status body [H | [H | []]]; discriminate H.
  - destruct (now w1) as [t w2]; simpl. exists t.
    destruct (saveEdit _ w2) as [[e | []] w3] eqn:Hsave; simpl.
    + split; [constructor|].
      intros status body [H | [H | [H | []]]]; discriminate H.
    + split; [constructor|]. intros status body _. exists w2. exact Hsave.
Qed.

Lemma mutation_run_ends_once (mut : Event) (ed : Edit) (l : list Event) :
  is_terminal mut = false -> mutation_run mut ed l -> ends_once l.
Proof.
  intros Hmut [e | e | status body].
  - exists [mut], (ENext e). repeat split; auto.
  - exists [mut; ESaveEdit ed], (ENext e). repeat split; auto.
  - exists [mut; ESaveEdit ed], (ERespond status body). repeat split; auto.
Qed.

(** X10: every handler ends a request exactly once: its log closes with
    one response or one error handed to [next], never both, never two
    responses, and nothing follows it. *)
Theorem handlers_end_once (req : Request) (w : World) :
  ends_once (log (run (get_list req) w))
  /\ ends_once (log (run (get_pet req) w))
  /\ ends_once (log (run (put_new req) w))
  /\ ends_once (log (run (put_pet req) w))
  /\ ends_once (log (run (delete_pet req) w)).
Proof.
  repeat match goal with |- _ /\ _ => split end.
  - unfold get_list. run_handler.
    destruct (aggregate _ w) as [[e | results] w']; simpl;
      eexists [_], _; repeat split; auto.
  - unfold get_pet. run_handler.
    destruct (findPetById _ w) as [[e | [p |]] w']; simpl;
      eexists [_], _; repeat split; auto.
  - destruct (put_new_shape req w) as (petId & createdOn & t & H & _).
    eapply mutation_run_ends_once; [|exact H]. reflexivity.
  - destruct (put_pet_shape req w) as (upd & t & _ & H & _).
    eapply mutation_run_ends_once; [|exact H]. reflexivity.
  - destruct (delete_pet_shape req w) as (t & H & _).
    eapply mutation_run_ends_once; [|exact H]. reflexivity.
Qed.

(** X11: a mutation handler answers only after its audit entry is
    saved: its first event is the storage mutation, it calls [saveEdit] at
    most once, and whenever it sends a response, of any status, its log
    is exactly the mutation, the save of one entry and then that
    response, the save has returned and left the world the run ends in,
    and the entry has the handler's operation, the [pets] collection and
    the actor's claims.  The two read handlers save none. *)
Theorem mutations_answer_only_after_audit (req : Request) (w : World) :
  let audited (o : string) (r : St) :=
    (exists mut rest, log r = mut :: rest /\ is_write mut = true /\ audits [mut] = [])
    /\ (length (audits (log r)) <= 1)%nat
    /\ (forall status body, In (ERespond status body) (log r) ->
          exists mut ed w',
            log r = [mut; ESaveEdit ed; ERespond status body]
            /\ saveEdit ed w' = (inr tt, world r)
            /\ op ed = o /\ col ed = "pets" /\ auth ed = req_auth req) in
  audited "insert" (run (put_new req) w)
  /\ audited "update" (run (put_pet req) w)
  /\ audited "delete" (run (delete_pet req) w)
  /\ audits (log (run (get_list req) w)) = []
  /\ audits (log (run (get_pet req) w)) = [].
Proof.
  assert (Hshape : forall mut ed (r : St) o,
             is_write mut = true -> audits [mut] = [] ->
             is_terminal mut = false ->
             op ed = o -> col ed = "pets" -> auth ed = req_auth req ->
             mutation_run mut ed (log r) ->
             (forall status body, In (ERespond status body) (log r) ->
                exists w', saveEdit ed w' = (inr tt, world r)) ->
             (exists m rest, log r = m :: rest /\ is_write m = true /\ audits [m] = [])
             /\ (length (audits (log r)) <= 1)%nat
             /\ (forall status body, In (ERespond status body) (log r) ->
                   exists m ed' w',
                     log r = [m; ESaveEdit ed'; ERespond status body]
                     /\ saveEdit ed' w' = (inr tt, world r)
                     /\ op ed' = o /\ col ed' = "pets"
                     /\ auth ed' = req_auth req)).
  { intros mut ed r o Hw Ha Ht Hop Hcol Hauth Hrun Hsaved.
    assert (Hhd : forall l, audits (mut :: l) = audits l).
    { intros l. destruct mut; simpl in *; congruence. }
    split; [inversion Hrun; eauto|].
    split.
    - inversion Hrun as [e Hl | e Hl | status body Hl]; rewrite Hhd; simpl; lia.
    - intros st b Hin. destruct (Hsaved st b Hin) as [w' Hw'].
      exists mut, ed, w'. split; [|auto].
      inversion Hrun as [e Hl | e Hl | status body Hl]; rewrite <- Hl in Hin.
      + destruct Hin as [H | [H | []]]; [subst mut; discriminate Ht | discriminate H].
      + destruct Hin as [H | [H | [H | []]]];
          [subst mut; discriminate Ht | discriminate H | discriminate H].
      + destruct Hin as [H | [H | [H | []]]];
          [subst mut; discriminate Ht | discriminate H |].
        injection H as <- <-. reflexivity. }
  intros audited. unfold audited.
  split; [|split; [|split; [|split]]].
  - destruct (put_new_shape req w) as (petId & createdOn & t & H & Hs).
    refine (Hshape _ _ _ _ _ _ _ _ _ _ H Hs); reflexivity.
  - destruct (put_pet_shape req w) as (upd & t & _ & H & Hs).
    refine (Hshape _ _ _ _ _ _ _ _ _ _ H Hs); reflexivity.
  - destruct (delete_pet_shape req w) as (t & H & Hs).
    refine (Hshape _ _ _ _ _ _ _ _ _ _ H Hs); reflexivity.
  - unfold get_list. run_handler.
    destruct (aggregate _ w) as [[e | results] w']; reflexivity.
  - unfold get_pet. run_handler.
    destruct (findPetById _ w) as [[e | [p |]] w']; reflexivity.
Qed.

(** X12: a mutation that throws is not audited: when the update or the
    deletion throws, the error goes to [next], no audit entry is saved
    and no response is sent. *)
Theorem failed_mutation_is_not_audited (req : Request) (w : World) :
  let petId := req_petId req in
  (forall upd w1 e w2,
     stamp req {| world := w; log := [] |} = (inr upd, {| world := w1; log := [] |}) ->
     updateOnePet petId upd w1 = (inl e, w2) ->
     run (put_pet req) w = {| world := w2; log := [EUpdate petId upd; ENext e] |})
  /\ (forall e w1,
        deleteOnePet petId w = (inl e, w1) ->
        run (delete_pet req) w = {| world := w1; log := [EDelete petId; ENext e] |}).
Proof.
  intros petId. split.
  - intros upd w1 e w2 Hstamp Hupd.
    unfold put_pet. fold petId. unfold run, bind at 1. rewrite Hstamp.
    run_handler. rewrite Hupd. reflexivity.
  - intros e w1 Hdel.
    unfold delete_pet. fold petId. run_handler. rewrite Hdel. reflexivity.
Qed.

(** X13: nothing is undone when the audit fails: if saving the entry
    throws after the insert, the update or the deletion returned, the
    handler makes no further storage call, sends no response and hands
    the error to [next], leaving the world as the failed save left it. *)
Theorem failed_audit_keeps_mutation (req : Request) (w : World) :
  let petId := req_petId req in
  (forall newPetId w1 createdOn w2 r w3 t w4 e w5,
     let pet := newPet req newPetId createdOn in
     newId w = (newPetId, w1) ->
     now w1 = (createdOn, w2) ->
     insertOnePet pet w2 = (inr r, w3) ->
     now w3 = (t, w4) ->
     saveEdit (insertEdit req newPetId pet t) w4 = (inl e, w5) ->
     run (put_new req) w
     = {| world := w5;
          log := [EInsert pet; ESaveEdit (insertEdit req newPetId pet t); ENext e] |})
  /\ (forall upd w1 r w2 t w3 e w4,
        stamp req {| world := w; log := [] |} = (inr upd, {| world := w1; log := [] |}) ->
        updateOnePet petId upd w1 = (inr r, w2) ->
        now w2 = (t, w3) ->
        saveEdit (updateEdit req upd t) w3 = (inl e, w4) ->
        run (put_pet req) w
        = {| world := w4;
             log := [EUpdate petId upd; ESaveEdit (updateEdit req upd t); ENext e] |})
  /\ (forall r w1 t w2 e w3,
        deleteOnePet petId w = (inr r, w1) ->
        now w1 = (t, w2) ->
        saveEdit (deleteEdit req t) w2 = (inl e, w3) ->
        run (delete_pet req) w
        = {| world := w3;
             log := [EDelete petId; ESaveEdit (deleteEdit req t); ENext e] |}).
Proof.
  intros petId. repeat match goal with |- _ /\ _ => split end.
  - intros newPetId w1 createdOn w2 r w3 t w4 e w5 pet Hid Hnow Hins Hnow' Hsave.
    exact (put_new_audit_failure req w w1 w2 w3 w4 w5 newPetId createdOn t r e
             Hid Hnow Hins Hnow' Hsave).
  - intros upd w1 r w2 t w3 e w4 Hstamp Hupd Hnow Hsave.
    unfold put_pet. fold petId. unfold run, bind at 1. rewrite Hstamp.
    run_handler. rewrite Hupd. simpl. rewrite Hnow. simpl. rewrite Hsave.
    reflexivity.
  - intros r w1 t w2 e w3 Hdel Hnow Hsave.
    unfold delete_pet. fold petId. run_handler.
    rewrite Hdel. simpl. rewrite Hnow. simpl. rewrite Hsave. reflexivity.
Qed.

(** X14: listing is read-only: the handler makes one storage call, the
    aggregation of the pipeline built from the query, answers with the
    documents it returns, hands its error to [next] when it throws, and
    never writes. *)
Theorem get_list_reads_only (req : Request) (w : World) :
  let p := pipeline (req_query req) in
  (forall results w', aggregate p w = (inr results, w') ->
     run (get_list req) w
     = {| world := w';
          log := [EAggregate p; ERespond 200 (VArr (VObj <$> results))] |})
  /\ (forall e w', aggregate p w = (inl e, w') ->
     run (get_list req) w = {| world := w'; log := [EAggregate p; ENext e] |})
  /\ Forall (fun ev => is_write ev = false) (log (run (get_list req) w))
  /\ world (run (get_list req) w) = snd (aggregate p w).
Proof.
  intros p. repeat match goal with |- _ /\ _ => split end.
  - intros results w' Hagg. apply get_list_runs_pipeline. exact Hagg.
  - intros e w' Hagg. unfold get_list. fold p. run_handler. rewrite Hagg. reflexivity.
  - unfold get_list. fold p. run_handler.
    destruct (aggregate p w) as [[e | results] w']; simpl; repeat constructor.
  - unfold get_list. fold p. run_handler.
    destruct (aggregate p w) as [[e | results] w']; reflexivity.
Qed.

End HandlerShapes.

(** Updating and deleting [p1] in a store that cannot be reached. *)
Lemma failed_mutation_is_not_audited_witness :
  log (run (put_pet (Mem.request "p1" {[ "age" := VNum 4 ]})) Mem.wdown)
  = [EUpdate "p1" (stamped (Mem.request "p1" {[ "age" := VNum 4 ]}) 100);
     ENext Mem.unreachable]
  /\ log (run (delete_pet (Mem.request "p1" ∅)) Mem.wdown)
     = [EDelete "p1"; ENext Mem.unreachable].
Proof.
  split.
  - destruct (failed_mutation_is_not_audited
                (Mem.request "p1" {[ "age" := VNum 4 ]}) Mem.wdown) as [H _].
    rewrite (H (stamped (Mem.request "p1" {[ "age" := VNum 4 ]}) 100)
               (snd (Mem.now Mem.wdown)) Mem.unreachable (snd (Mem.now Mem.wdown)));
      [reflexivity | vm_compute; reflexivity | vm_compute; reflexivity].
  - destruct (failed_mutation_is_not_audited (Mem.request "p1" ∅) Mem.wdown) as [_ H].
    rewrite (H Mem.unreachable Mem.wdown); reflexivity.
Defined.

(** Creating Fido, then updating and deleting the stored [p1], while the
    audit collection refuses writes: the pet is stored, changed or gone,
    no audit entry exists and the caller gets the error. *)
Lemma failed_audit_keeps_mutation_witness :
  (log (run (put_new (DB := audit_down) (Mem.request "" Mem.fido)) Mem.w0)
   = [EInsert (newPet (Mem.request "" Mem.fido) "p1" 100);
      ESaveEdit (insertEdit (Mem.request "" Mem.fido) "p1"
                   (newPet (Mem.request "" Mem.fido) "p1" 100) 101);
      ENext (Error "audit store unavailable")]
   /\ Mem.pets (world (run (put_new (DB := audit_down) (Mem.request "" Mem.fido)) Mem.w0))
        !! "p1"
      = Some (newPet (Mem.request "" Mem.fido) "p1" 100)
   /\ Mem.edits (world (run (put_new (DB := audit_down) (Mem.request "" Mem.fido)) Mem.w0))
      = [])
  /\ (log (run (put_pet (DB := audit_down) (Mem.request "p1" ∅)) Mem.w1)
      = [EUpdate "p1" ∅;
         ESaveEdit (updateEdit (Mem.request "p1" ∅) ∅ 100);
         ENext (Error "audit store unavailable")])
  /\ (log (run (delete_pet (DB := audit_down) (Mem.request "p1" ∅)) Mem.w1)
      = [EDelete "p1";
         ESaveEdit (deleteEdit (Mem.request "p1" ∅) 100);
         ENext (Error "audit store unavailable")]
      /\ Mem.pets (world (run (delete_pet (DB := audit_down) (Mem.request "p1" ∅)) Mem.w1))
           !! "p1"
         = None).
Proof.
  split; [|split].
  - pose (req := Mem.request "" Mem.fido).
    pose (pet := newPet req "p1" 100).
    pose (wa := snd (Mem.newId Mem.w0)).
    pose (wb := snd (Mem.now wa)).
    pose (wc := snd (Mem.insertOnePet pet wb)).
    pose (wd := snd (Mem.now wc)).
    destruct (failed_audit_keeps_mutation (DB := audit_down) req Mem.w0) as [H _].
    fold req. rewrite (H "p1" wa 100 wb {| insertedId := "p1" |} wc 101 wd
                         (Error "audit store unavailable") wd);
      [| vm_compute; reflexivity ..].
    repeat split; vm_compute; reflexivity.
  - pose (req := Mem.request "p1" ∅).
    pose (wa := snd (Mem.updateOnePet "p1" ∅ Mem.w1)).
    pose (wb := snd (Mem.now wa)).
    destruct (failed_audit_keeps_mutation (DB := audit_down) req Mem.w1) as (_ & H & _).
    fold req. rewrite (H ∅ Mem.w1 {| matchedCount := 1; modifiedCount := 1 |} wa 100 wb
                         (Error "audit store unavailable") wb);
      [reflexivity | vm_compute; reflexivity ..].
  - pose (req := Mem.request "p1" ∅).
    pose (wa := snd (Mem.deleteOnePet "p1" Mem.w1)).
    pose (wb := snd (Mem.now wa)).
    destruct (failed_audit_keeps_mutation (DB := audit_down) req Mem.w1) as (_ & _ & H).
    fold req. rewrite (H {| deletedCount := 1 |} wa 100 wb
                         (Error "audit store unavailable") wb);
      [| vm_compute; reflexivity ..].
    split; vm_compute; reflexivity.
Defined.

(** Listing against the in-memory store, which has no aggregation
    engine: the error goes to [next]. *)
Lemma get_list_reads_only_witness :
  run (get_list (Mem.request "" ∅)) Mem.w1
  = {| world := Mem.w1;
       log := [EAggregate (pipeline Query.empty);
               ENext (Error "aggregate: not supported")] |}.
Proof.
  apply (proj1 (proj2 (get_list_reads_only (Mem.request "" ∅) Mem.w1))).
  reflexivity.
Defined.

(** ** Reading numerals *)

Module Numerals.

Import Decimal.

Definition uvalue (d : uint) : Z := Z.of_N (DecimalPos.Unsigned.of_lu (rev d)).

Lemma uvalue_snoc (d : uint) (k : N) (c : uint -> uint) :
  (forall u, DecimalPos.Unsigned.of_lu (c u)
             = (k + 10 * DecimalPos.Unsigned.of_lu u)%N) ->
  (forall u v, revapp (c u) v = revapp u (c v)) ->
  DecimalPos.Unsigned.of_lu (rev (c d))
  = (DecimalPos.Unsigned.of_lu (rev d) + k * 10 ^ DecimalPos.Unsigned.usize d)%N.
Proof.
  intros Hc Hrev. unfold rev at 1. rewrite Hrev.
  rewrite DecimalPos.Unsigned.of_lu_revapp, Hc. simpl.
  rewrite N.mul_0_r, N.add_0_r. reflexivity.
Qed.

Lemma ends_numeral_stops (a : ascii) :
  ends_numeral a = true ->
  match digitVal a with
  | Some v => (v <? 10) = false
  | None => True
  end.
Proof.
  unfold ends_numeral, digitVal. intros H.
  apply andb_true_iff in H as [H _]. apply andb_true_iff in H as [H _].
  apply negb_true_iff in H. rewrite H.
  destruct ((97 <=? code a) && (code a <=? 122)) eqn:Hlow.
  - apply andb_true_iff in Hlow as [H1 _]. apply Z.leb_le in H1.
    apply Z.ltb_ge. lia.
  - destruct ((65 <=? code a) && (code a <=? 90)) eqn:Hup; [|exact I].
    apply andb_true_iff in Hup as [H1 _]. apply Z.leb_le in H1.
    apply Z.ltb_ge. lia.
Qed.

Lemma digits_tail (t : string) (acc : option Z) :
  numeral_tail t = true -> digits 10 t acc = acc.
Proof.
  destruct t as [|a t']; simpl; [reflexivity|].
  intros H. apply ends_numeral_stops in H.
  destruct (digitVal a) as [v|]; [rewrite H|]; reflexivity.
Qed.

(** Reading the digits of [d] on top of an accumulator. *)
Lemma digits_uint (d : uint) (t : string) (acc : Z) :
  numeral_tail t = true ->
  digits 10 (DecimalString.NilEmpty.string_of_uint d ++ t) (Some acc)
  = Some (uvalue d + acc * 10 ^ Z.of_N (DecimalPos.Unsigned.usize d)).
Proof.
  intros Ht. revert acc.
  induction d as [|d IH|d IH|d IH|d IH|d IH|d IH|d IH|d IH|d IH|d IH]; intros acc.
  1: { simpl. rewrite digits_tail by exact Ht. unfold uvalue. simpl. f_equal. lia. }
  all: simpl digits; rewrite IH; f_equal; unfold uvalue;
    match goal with
    | |- context [rev (?c ?u)] =>
        rewrite (uvalue_snoc u (DecimalPos.Unsigned.hd (c Nil)) c)
          by (intros; reflexivity)
    end;
    cbn [DecimalPos.Unsigned.usize DecimalPos.Unsigned.hd];
    rewrite N2Z.inj_add, N2Z.inj_mul, N2Z.inj_pow, N2Z.inj_succ, Z.pow_succ_r
      by apply N2Z.is_nonneg;
    match goal with
    | |- context [code ?c] =>
        let v := eval vm_compute in (code c) in change (code c) with v
    end;
    simpl Z.of_N; ring.
Qed.

Lemma trimStart_white (ws s : string) :
  all_white ws = true -> trimStart (ws ++ s) = trimStart s.
Proof.
  induction ws as [|a ws IH]; simpl; [reflexivity|].
  intros H. apply andb_true_iff in H as [Ha Hws]. rewrite Ha. auto.
Qed.

Lemma stripPrefix_zero (a : ascii) (s : string) :
  stripPrefix (String "0" (String a s))
  = if Ascii.eqb a "x" || Ascii.eqb a "X"
    then (16, s) else (10, String "0" (String a s)).
Proof.
  destruct a as [[] [] [] [] [] [] [] []]; reflexivity.
Qed.

(** The numeral of [d], with ["0"] for no digit at all, always starts
    with a digit: no white space is trimmed, no sign is stripped, and
    followed by [t] it is not taken for a hexadecimal prefix. *)
Lemma numeral_read (d : uint) (t : string) :
  numeral_tail t = true ->
  let s := (DecimalString.NilZero.string_of_uint d ++ t)%string in
  trimStart s = s /\ stripSign s = (false, s) /\ stripPrefix s = (10, s)
  /\ digits 10 s None = Some (Z.of_uint d).
Proof.
  intros Ht s.
  assert (Hval : forall u, u <> Nil ->
             digits 10 (DecimalString.NilEmpty.string_of_uint u ++ t) None
             = Some (Z.of_uint u)).
  { intros u Hu.
    transitivity (digits 10 (DecimalString.NilEmpty.string_of_uint u ++ t) (Some 0)).
    - destruct u; try contradiction; reflexivity.
    - rewrite digits_uint by exact Ht. unfold uvalue, Z.of_uint.
      rewrite DecimalPos.Unsigned.of_uint_alt. f_equal. lia. }
  assert (Hzero : forall r : string,
             numeral_tail r = true ->
             stripPrefix (String "0" r) = (10, String "0" r)).
  { intros [|a r] Hr; [reflexivity|].
    rewrite stripPrefix_zero. simpl in Hr. unfold ends_numeral in Hr.
    apply andb_true_iff in Hr as [Hr HX]. apply andb_true_iff in Hr as [_ Hx].
    apply negb_true_iff in Hx, HX. rewrite Hx, HX. reflexivity. }
  destruct d as [|d|d|d|d|d|d|d|d|d|d]; subst s.
  1: { change (DecimalString.NilZero.string_of_uint Nil ++ t)%string
         with (String "0" t).
       split; [reflexivity | split; [reflexivity | split; [apply Hzero; exact Ht |]]].
       change (digits 10 (String "0" t) None) with (digits 10 t (Some 0)).
       rewrite digits_tail by exact Ht. reflexivity. }
  2-10: (split; [reflexivity | split; [reflexivity | split;
           [reflexivity | apply Hval; discriminate]]]).
  split; [reflexivity | split; [reflexivity | split; [| apply Hval; discriminate]]].
  destruct d; try reflexivity. apply Hzero. exact Ht.
Qed.

End Numerals.

(** A numeral between white space and a tail that ends it is read as the
    double nearest to its integer. *)
Lemma read_numeral (ws : string) (n : Z) (t : string) :
  all_white ws = true ->
  numeral_tail t = true ->
  parseInt (Some (ws ++ decimal n ++ t)) = to_double n.
Proof.
  intros Hws Ht. unfold parseInt, ToString, decimal.
  rewrite Numerals.trimStart_white by exact Hws.
  rewrite <- (DecimalZ.of_to n) at 2.
  destruct (Z.to_int n) as [d | d]; simpl DecimalString.NilZero.string_of_int.
  - destruct (Numerals.numeral_read d t Ht) as (H1 & H2 & H3 & H4).
    rewrite H1, H2, H3, H4. reflexivity.
  - destruct (Numerals.numeral_read d t Ht) as (H1 & H2 & H3 & H4).
    simpl. rewrite H3, H4. reflexivity.
Qed.

Lemma read_numeral_exact (ws : string) (n : Z) (t : string) :
  all_white ws = true ->
  numeral_tail t = true ->
  Z.abs n <= 2 ^ 53 ->
  parseInt (Some (ws ++ decimal n ++ t)) = Num n.
Proof.
  intros Hws Ht Hn. rewrite read_numeral by assumption.
  apply to_double_exact. exact Hn.
Qed.

Example decimal_samples :
  decimal 0 = "0" /\ decimal 1000 = "1000" /\ decimal (-12) = "-12".
Proof. repeat split. Qed.

Example read_numeral_samples :
  parseInt (Some "  10px") = Num 10
  /\ parseInt (Some "9007199254740993") = Num 9007199254740992
  /\ parseInt (Some (decimal (10 ^ 310 - 1))) = Inf false.
Proof. repeat split; vm_compute; reflexivity. Qed.

(** X15: the page parameters are read leniently: when pageNumber and
    pageSize are, each after any white space and before nothing or any
    text that starts with neither a digit nor an [x], the decimal numerals
    of integers [n] and [m] other than zero, with [n], [m] and
    [(n - 1) * m] of magnitude at most 2^53, the offset is [(n - 1) * m]
    and the limit is [m]. *)
Theorem list_reads_page_numerals
    (q : Query.t) (ws1 ws2 t1 t2 : string) (n m : Z) :
  Query.pageNumber q = Some (ws1 ++ decimal n ++ t1) ->
  Query.pageSize q = Some (ws2 ++ decimal m ++ t2) ->
  all_white ws1 = true -> numeral_tail t1 = true ->
  all_white ws2 = true -> numeral_tail t2 = true ->
  n <> 0 -> m <> 0 ->
  Z.abs n <= 2 ^ 53 -> Z.abs m <= 2 ^ 53 -> Z.abs ((n - 1) * m) <= 2 ^ 53 ->
  resolvedPageNumber q = Num n
  /\ resolvedPageSize q = Num m
  /\ skipStage q = Num ((n - 1) * m)
  /\ limitStage q = Num m.
Proof.
  intros Hn Hm Hws1 Ht1 Hws2 Ht2 Hn0 Hm0 Bn Bm Bnm.
  assert (Pn : resolvedPageNumber q = Num n).
  { unfold resolvedPageNumber, js_or.
    rewrite Hn, read_numeral_exact by assumption.
    rewrite (proj2 (truthy_Num n) Hn0). reflexivity. }
  assert (Pm : resolvedPageSize q = Num m).
  { unfold resolvedPageSize, js_or.
    rewrite Hm, read_numeral_exact by assumption.
    rewrite (proj2 (truthy_Num m) Hm0). reflexivity. }
  split; [exact Pn | split; [exact Pm | split]].
  - apply skipStage_exact; [exact Pn | exact Pm | | exact Bnm].
    assert (Z.abs (n - 1) * 1 <= Z.abs (n - 1) * Z.abs m)
      by (apply Z.mul_le_mono_nonneg_l; lia).
    rewrite Z.abs_mul in Bnm. lia.
  - unfold limitStage. exact Pm.
Qed.

Lemma list_reads_page_numerals_witness :
  resolvedPageNumber
    (Query.Build None None None None None (Some " 3rd") (Some "10px")) = Num 3
  /\ resolvedPageSize
       (Query.Build None None None None None (Some " 3rd") (Some "10px")) = Num 10
  /\ skipStage
       (Query.Build None None None None None (Some " 3rd") (Some "10px"))
     = Num ((3 - 1) * 10)
  /\ limitStage
       (Query.Build None None None None None (Some " 3rd") (Some "10px")) = Num 10.
Proof.
  apply (list_reads_page_numerals
           (Query.Build None None None None None (Some " 3rd") (Some "10px"))
           " " "" "rd" "px" 3 10);
    first [reflexivity | lia | vm_compute; discriminate].
Defined.

(** X16: the age bounds are read leniently: when minAge and maxAge are,
    each after any white space and before nothing or any text that starts
    with neither a digit nor an [x], the decimal numerals of integers [a]
    and [b] other than zero and of magnitude at most 2^53, the match holds
    the range from [a] to [b], and a pet passes it exactly when its age is
    within the two. *)
Theorem list_reads_age_numerals
    (q : Query.t) (ws1 ws2 t1 t2 : string) (a b : Z) :
  Query.minAge q = Some (ws1 ++ decimal a ++ t1) ->
  Query.maxAge q = Some (ws2 ++ decimal b ++ t2) ->
  all_white ws1 = true -> numeral_tail t1 = true ->
  all_white ws2 = true -> numeral_tail t2 = true ->
  a <> 0 -> b <> 0 ->
  Z.abs a <= 2 ^ 53 -> Z.abs b <= 2 ^ 53 ->
  age (matchStage q) = Some {| gte := Some (Num a); lte := Some (Num b) |}
  /\ (forall x, age_matches (age (matchStage q)) x = true <-> a <= x <= b).
Proof.
  intros Ha Hb Hws1 Ht1 Hws2 Ht2 Ha0 Hb0 Ba Bb.
  assert (Pa : parseInt (Query.minAge q) = Num a)
    by (rewrite Ha; apply read_numeral_exact; assumption).
  assert (Pb : parseInt (Query.maxAge q) = Num b)
    by (rewrite Hb; apply read_numeral_exact; assumption).
  split.
  - apply (list_age_range_nonzero q a b 0 Pa Ha0 Pb Hb0).
  - intros x. apply (list_age_range_nonzero q a b x Pa Ha0 Pb Hb0).
Qed.

Lemma list_reads_age_numerals_witness :
  age (matchStage (Query.Build None None (Some "1") (Some " 12 years") None None None))
  = Some {| gte := Some (Num 1); lte := Some (Num 12) |}
  /\ (forall x,
        age_matches
          (age (matchStage
                  (Query.Build None None (Some "1") (Some " 12 years") None None None)))
          x = true
        <-> 1 <= x <= 12).
Proof.
  apply (list_reads_age_numerals
           (Query.Build None None (Some "1") (Some " 12 years") None None None)
           "" " " "" " years" 1 12);
    first [reflexivity | lia | vm_compute; discriminate].
Defined.
